(** * ghpro / ghtools: backporting pull requests

    A shallow embedding of [ghpro/backport.py], [ghtools/backport.py] and
    [ghpro/utils.py], and the properties of the backport reconciler
    ([tobackport]), of the two patch appliers ([backport_pr]) and of the
    project resolver ([guess_project]).

    Text is modelled as byte strings ([string]); the two regular
    expressions of the sources are terms of a small regular-expression
    syntax, run by a backtracking matcher that follows the search order of
    Python's [re]; the git repository, the hosting API, the file system and
    the HTTP client are an environment of oracles, and every call the
    program makes to them is recorded in a trace. *)

From Stdlib Require Import ZArith Ascii String List DecimalString.
From stdpp Require Import base option gmap strings list sorting.

Local Open Scope Z_scope.

(** ** Characters and text *)

Module Text.

Definition code (c : ascii) : N := N_of_ascii c.

(** [\d] on byte strings. *)
Definition is_digit (c : ascii) : bool :=
  ((48 <=? code c) && (code c <=? 57))%N.

Definition is_upper (c : ascii) : bool :=
  ((65 <=? code c) && (code c <=? 90))%N.

(** [c.lower()] on one byte. *)
Definition lower (c : ascii) : ascii :=
  if is_upper c then ascii_of_N (code c + 32) else c.

Definition newline : ascii := ascii_of_N 10.

Definition chars (s : string) : list ascii := list_ascii_of_string s.
Definition text (l : list ascii) : string := string_of_list_ascii l.

(** [s.startswith(p)] and [needle in hay], on lists of characters. *)
Fixpoint starts_with (p s : list ascii) : bool :=
  match p, s with
  | [], _ => true
  | a :: p', b :: s' => Ascii.eqb a b && starts_with p' s'
  | _ :: _, [] => false
  end.

Fixpoint occurs (needle hay : list ascii) : bool :=
  starts_with needle hay ||
  match hay with
  | [] => false
  | _ :: hay' => occurs needle hay'
  end.

(** [needle in hay] of Python, on strings. *)
Definition contains (needle hay : string) : bool :=
  occurs (chars needle) (chars hay).

(** [s.endswith(p)] *)
Definition ends_with (p s : string) : bool :=
  starts_with (rev (chars p)) (rev (chars s)).

(** [s.lower()] *)
Definition lower_all (l : list ascii) : list ascii := lower <$> l.

(** [s[:n]] of Python: the first [n] characters, fewer when [s] is
    shorter. *)
Definition slice_to (n : nat) (s : string) : string := String.substring 0 n s.

(** [s.replace(old, new)] where [old] and [new] are one character long,
    the only form the sources use. *)
Fixpoint replace_char (old new : ascii) (s : string) : string :=
  match s with
  | EmptyString => EmptyString
  | String c s' =>
      String (if Ascii.eqb c old then new else c) (replace_char old new s')
  end.

(** [c in s] for one character. *)
Fixpoint has_char (c : ascii) (s : string) : bool :=
  match s with
  | EmptyString => false
  | String d s' => Ascii.eqb d c || has_char c s'
  end.

(** ["%i" % n] and [str(n)] for an integer. *)
Definition str_of_int (n : Z) : string := NilZero.string_of_int (Z.to_int n).

Definition digit_value (c : ascii) : Z := Z.of_N (code c) - 48.

(** [int(s)] for a string of decimal digits; [None] stands for the
    [ValueError] raised on any other string. *)
Definition int_of_digits (l : list ascii) : option Z :=
  match l with
  | [] => None
  | _ =>
      if forallb is_digit l
      then Some (fold_left (λ acc c, 10 * acc + digit_value c) l 0)
      else None
  end.

(** [sep.join(parts)]. *)
Fixpoint join (sep : string) (parts : list string) : string :=
  match parts with
  | [] => ""
  | [p] => p
  | p :: ps => p +:+ sep +:+ join sep ps
  end.

End Text.

(** ** Regular expressions

    The fragment of the [re] syntax that the three patterns of the sources
    use: character classes, sequence, alternation, [*] / [*?] (and so
    [+]) on a character class, and one capturing group. *)

Module Re.
Import Text.

Inductive regex : Type :=
| Eps
| Chr (p : ascii → bool)
| Cat (a b : regex)
| Alt (a b : regex)
| Rep (greedy : bool) (p : ascii → bool)
| Group (a : regex).

(** Character classes. *)
Definition one (c : ascii) : ascii → bool := λ x, Ascii.eqb x c.
Definition one_nocase (c : ascii) : ascii → bool :=
  λ x, Ascii.eqb (lower x) (lower c).
Definition either (c d : ascii) : ascii → bool :=
  λ x, Ascii.eqb x c || Ascii.eqb x d.
(** [.] without DOTALL. *)
Definition dot : ascii → bool := λ x, negb (Ascii.eqb x newline).
(** [[^c]]. *)
Definition other_than (c : ascii) : ascii → bool := λ x, negb (Ascii.eqb x c).

(** A literal string, and the same under IGNORECASE. *)
Fixpoint lit (s : string) : regex :=
  match s with
  | EmptyString => Eps
  | String c s' => Cat (Chr (one c)) (lit s')
  end.

Fixpoint lit_nocase (s : string) : regex :=
  match s with
  | EmptyString => Eps
  | String c s' => Cat (Chr (one_nocase c)) (lit_nocase s')
  end.

(** [p+] *)
Definition plus (p : ascii → bool) : regex := Cat (Chr p) (Rep true p).

Section Matcher.
Context {R : Type}.

(** A continuation receives the number of characters consumed so far,
    the rest of the input and the text of group 1. *)
Definition cont : Type := nat → list ascii → option (list ascii) → option R.

(** [p*] (greedy: longest run first) and [p*?] (lazy: shortest first),
    backtracking into the continuation. *)
Fixpoint rep_loop (greedy : bool) (p : ascii → bool)
    (pos : nat) (s : list ascii) (g : option (list ascii)) (k : cont)
    : option R :=
  match s with
  | c :: s' =>
      if p c then
        if greedy then
          match rep_loop greedy p (S pos) s' g k with
          | Some x => Some x
          | None => k pos s g
          end
        else
          match k pos s g with
          | Some x => Some x
          | None => rep_loop greedy p (S pos) s' g k
          end
      else k pos s g
  | [] => k pos s g
  end.

Fixpoint matchK (r : regex) (pos : nat) (s : list ascii)
    (g : option (list ascii)) (k : cont) : option R :=
  match r with
  | Eps => k pos s g
  | Chr p =>
      match s with
      | c :: s' => if p c then k (S pos) s' g else None
      | [] => None
      end
  | Cat a b => matchK a pos s g (λ pos' s' g', matchK b pos' s' g' k)
  | Alt a b =>
      match matchK a pos s g k with
      | Some x => Some x
      | None => matchK b pos s g k
      end
  | Rep greedy p => rep_loop greedy p pos s g k
  | Group a =>
      matchK a pos s g (λ pos' s' _, k pos' s' (Some (take (pos' - pos) s)))
  end.
End Matcher.

(** [pattern.match(s)]: a match anchored at the start of [s]; the result
    is the length of the match and the text of group 1. *)
Definition match_at (r : regex) (s : list ascii)
    : option (nat * option (list ascii)) :=
  matchK r 0%nat s None (λ pos _ g, Some (pos, g)).

(** [m.group(1)] of a match. *)
Definition group1 (m : nat * option (list ascii)) : list ascii :=
  default [] (snd m).

(** [pattern.findall(s)] for a pattern with one group: the matches are
    searched from left to right and do not overlap; [skip] counts the
    characters of [s] that still belong to the previous match. *)
Fixpoint findall_go (r : regex) (skip : nat) (s : list ascii)
    : list (list ascii) :=
  match s with
  | [] =>
      match skip, match_at r [] with
      | O, Some m => [group1 m]
      | _, _ => []
      end
  | _ :: s' =>
      match skip with
      | S n => findall_go r n s'
      | O =>
          match match_at r s with
          | Some m => group1 m :: findall_go r (fst m - 1) s'
          | None => findall_go r 0 s'
          end
      end
  end.

Definition findall (r : regex) (s : string) : list (list ascii) :=
  findall_go r 0 (chars s).

(** Declarative semantics: [matches r pos s g pos' s' g'] when [r]
    can consume a prefix of [s], leaving [s']. *)
Fixpoint matches (r : regex) (pos : nat) (s : list ascii)
    (g : option (list ascii)) (pos' : nat) (s' : list ascii)
    (g' : option (list ascii)) : Prop :=
  match r with
  | Eps => pos' = pos ∧ s' = s ∧ g' = g
  | Chr p => ∃ c, s = c :: s' ∧ p c = true ∧ pos' = S pos ∧ g' = g
  | Cat a b =>
      ∃ pos1 s1 g1, matches a pos s g pos1 s1 g1 ∧ matches b pos1 s1 g1 pos' s' g'
  | Alt a b => matches a pos s g pos' s' g' ∨ matches b pos s g pos' s' g'
  | Rep _ p =>
      ∃ w, s = w ++ s' ∧ forallb p w = true ∧
           pos' = (pos + length w)%nat ∧ g' = g
  | Group a =>
      ∃ g0, matches a pos s g pos' s' g0 ∧ g' = Some (take (pos' - pos) s)
  end.

End Re.

(** ** The patterns of the sources *)

Module Patterns.
Import Text Re.

(** [(?:[Bb]ackport|[Mm]erge)] *)
Definition keyword : regex :=
  Alt (Cat (Chr (either "B" "b")) (lit "ackport"))
      (Cat (Chr (either "M" "m")) (lit "erge")).

(** ghpro/backport.py:
    [backport_re = re.compile(r"(?:[Bb]ackport|[Mm]erge).*?(\d+)(?:[^.])")] *)
Definition backport_re_ghpro : regex :=
  Cat keyword
    (Cat (Rep false dot)
       (Cat (Group (plus is_digit)) (Chr (other_than ".")))).

(** ghtools/backport.py:
    [backport_re = re.compile(r"(?:[Bb]ackport|[Mm]erge).*?(\d+)")] *)
Definition backport_re_ghtools : regex :=
  Cat keyword (Cat (Rep false dot) (Group (plus is_digit))).

(** ghpro/utils.py: the text of the pattern compiled into [_project_pat]. *)
Definition _project_pat_source : string := ".*github.com[:/](.*)\.git".

(** [_project_pat = re.compile(_project_pat_source, re.IGNORECASE)]; the
    dot of [github.com] is not escaped and stands for any character. *)
Definition _project_pat : regex :=
  Cat (Rep true dot)
    (Cat (lit_nocase "github")
       (Cat (Chr dot)
          (Cat (lit_nocase "com")
             (Cat (Chr (either ":" "/"))
                (Cat (Group (Rep true dot)) (lit_nocase ".git")))))).

End Patterns.

(** ** The Python run time: records, exceptions, environment, effects *)

Module Py.
Import Text.

(** Records returned by the hosting API (the values the sources read). *)
Record milestone := { milestone_title : string }.

Record pull_request := {
  pr_number : Z;
  pr_title : string;
  pr_body : option string;           (* [None] is JSON null *)
  pr_merged : bool;
  pr_merge_commit_sha : string;
  pr_patch_url : string;
  pr_milestone : option milestone
}.

Record issue := { issue_number : Z }.
Record changed_file := { filename : string }.
Record remote := { remote_name : string; remote_url : string }.
Record response := { status_code : Z; content : string }.

Inductive exn : Type :=
| AttributeError (msg : string)
| IndexError (msg : string)
| ValueError (msg : string)
| IOError (msg : string)
| GitCommandError (stderr : string)
| HTTPError (status : Z)
| ApiError (msg : string).

(** Result of an external call. *)
Inductive res (A : Type) : Type :=
| Ok (a : A)
| Err (e : exn).
Arguments Ok {A} a.
Arguments Err {A} e.

(** [repo.git.<command>(args)]. *)
Inductive git_cmd : Type :=
| Checkout (branch : string)
| ForEachRef (args : list string)
| Pull
| Status
| CherryPick (args : list string)
| Commit (args : list string)
| Add (paths : list string)
| Describe (args : list string)
| Log (args : list string).

Inductive stream : Type := Stdout | Stderr.

(** What the program does to the outside world, in order. *)
Inductive event : Type :=
| EGit (c : git_cmd) (out : res string)
| EPrint (to : stream) (line : string)
| EEnviron (patch : list (string * string))
| EEnvironRestore
| EHttpGet (url : string)
| EPopen (argv : list string) (cwd : option string) (input : string)
    (returncode : Z)
| ERead (fname : string)
| EWrite (fname : string) (data : string).

(** The collaborators.  The git repository and the subprocesses answer
    according to everything done so far; the hosting API is a snapshot.
    [pipes_quote] and [version_lt] stand for [pipes.quote] and for
    [V(a) < V(b)] with [V = distutils.version.LooseVersion]; the [api]
    module of the repository is [get_pull_request] ... [is_pull_request]. *)
Record env := {
  active_branch : string;
  git_oracle : list event → git_cmd → res string;
  remotes : list remote;
  get_pull_request : string → Z → res pull_request;
  get_pull_request_files : string → Z → res (list changed_file);
  get_milestone_id : string → string → res Z;
  get_issues_list : string → Z → string → res (list issue);
  is_pull_request : issue → bool;
  requests_get : string → res response;
  popen_oracle : list event → list string → string → Z;
  sys_argv : list string;
  pipes_quote : string → string;
  version_lt : string → string → bool
}.

(** The mutable world: the trace so far and the files of the working
    directory. *)
Record world := { trace : list event; files : gmap string string }.

Definition log_event (e : event) (w : world) : world :=
  {| trace := trace w ++ [e]; files := files w |}.

(** Outcome of a statement inside a function whose [return] type is [R]. *)
Inductive outcome (R A : Type) : Type :=
| Normal (a : A)
| Raised (e : exn)
| Returned (v : R).
Arguments Normal {R A} a.
Arguments Raised {R A} e.
Arguments Returned {R A} v.

Definition M (R A : Type) : Type := env → world → outcome R A * world.

#[global] Instance M_ret {R} : MRet (M R) := λ A a _ w, (Normal a, w).

#[global] Instance M_bind {R} : MBind (M R) := λ A B f m e w,
  match m e w with
  | (Normal a, w') => f a e w'
  | (Raised x, w') => (Raised x, w')
  | (Returned v, w') => (Returned v, w')
  end.

Section Ops.
Context {R : Type}.

Definition raise {A} (x : exn) : M R A := λ _ w, (Raised x, w).

(** [return v] *)
Definition return_ {A} (v : R) : M R A := λ _ w, (Returned v, w).

Definition lift {A} (r : res A) : M R A :=
  match r with Ok a => mret a | Err x => raise x end.

Definition ask {A} (f : env → A) : M R A := λ e w, (Normal (f e), w).

Definition emit (ev : event) : M R unit := λ _ w, (Normal tt, log_event ev w).

Definition when (b : bool) (m : M R unit) : M R unit :=
  if b then m else mret tt.

(** [try: m  except Exception as e: h e] *)
Definition try_except {A} (m : M R A) (h : exn → M R A) : M R A := λ e w,
  match m e w with
  | (Raised x, w') => h x e w'
  | other => other
  end.

(** [with mock.patch.dict('os.environ', patch): m] *)
Definition with_environ {A} (patch : list (string * string)) (m : M R A)
    : M R A := λ e w,
  match m e (log_event (EEnviron patch) w) with
  | (o, w') => (o, log_event EEnvironRestore w')
  end.

(** [repo.git.<command>(args)]: the output, or [GitCommandError]. *)
Definition git (c : git_cmd) : M R string := λ e w,
  let out := git_oracle e (trace w) c in
  match out with
  | Ok s => (Normal s, log_event (EGit c out) w)
  | Err x => (Raised x, log_event (EGit c out) w)
  end.

Definition git_ (c : git_cmd) : M R unit := git c ≫= λ _, mret tt.

Definition print (line : string) : M R unit := emit (EPrint Stdout line).
Definition print_err (line : string) : M R unit := emit (EPrint Stderr line).

(** [os.path.exists(fname)] *)
Definition path_exists (fname : string) : M R bool := λ _ w,
  (Normal (bool_decide (is_Some (files w !! fname))), w).

(** [open(fname, 'rb').read()] *)
Definition read_file (fname : string) : M R string := λ _ w,
  match files w !! fname with
  | Some data => (Normal data, log_event (ERead fname) w)
  | None => (Raised (IOError fname), w)
  end.

(** [open(fname, 'wb').write(data)] *)
Definition write_file (fname data : string) : M R unit := λ _ w,
  (Normal tt,
   {| trace := trace w ++ [EWrite fname data];
      files := <[fname := data]> (files w) |}).

(** [p = Popen(argv, cwd=cwd, stdin=PIPE); p.communicate(input);
    p.returncode] *)
Definition popen (argv : list string) (cwd : option string)
    (input : string) : M R Z := λ e w,
  let rc := popen_oracle e (trace w) argv input in
  (Normal rc, log_event (EPopen argv cwd input rc) w).

(** [requests.get(url)] *)
Definition http_get (url : string) : M R response :=
  emit (EHttpGet url) ≫= λ _, ask (λ e, requests_get e url) ≫= lift.

(** [r.raise_for_status()]: client and server errors raise. *)
Definition raise_for_status (r : response) : M R unit :=
  if bool_decide (400 ≤ status_code r < 600)
  then raise (HTTPError (status_code r))
  else mret tt.

(** [o.replace(old, new)] where [o] may be [None]. *)
Definition method_replace (o : option string) (old new : ascii)
    : M R string :=
  match o with
  | Some s => mret (replace_char old new s)
  | None => raise (AttributeError "'NoneType' object has no attribute 'replace'")
  end.

(** [for x in l: s = body x s] *)
Fixpoint for_each {A S} (l : list A) (s : S) (body : A → S → M R S)
    : M R S :=
  match l with
  | [] => mret s
  | x :: l' => body x s ≫= λ s', for_each l' s' body
  end.

(** [for x in l: body x] *)
Definition for_each_ {A} (l : list A) (body : A → M R unit) : M R unit :=
  for_each l tt (λ x _, body x).
End Ops.

(** [e.stderr] of a caught exception: only [GitCommandError] has it. *)
Definition stderr_of {R : Type} (x : exn) : M R string :=
  match x with
  | GitCommandError stderr => mret stderr
  | _ => raise (AttributeError "exception has no attribute 'stderr'")
  end.

(** Calling a function: its [return] ends the call, not the caller. *)
Definition call {R R' : Type} (body : M R R) : M R' R := λ e w,
  match body e w with
  | (Normal a, w') => (Normal a, w')
  | (Returned v, w') => (Normal v, w')
  | (Raised x, w') => (Raised x, w')
  end.

(** Running a function from a working directory, with an empty trace:
    the value returned or the exception raised, and the final world. *)
Definition run {R : Type} (e : env) (fs : gmap string string) (body : M R R)
    : res R * world :=
  match body e {| trace := []; files := fs |} with
  | (Normal a, w') => (Ok a, w')
  | (Returned v, w') => (Ok v, w')
  | (Raised x, w') => (Err x, w')
  end.

(** [sorted(s)] for a set of integers. *)
Definition sorted (s : gset Z) : list Z := merge_sort Z.le (elements s).

(** Truth value of a string and of a set. *)
Definition nonempty_str (s : string) : bool := negb (String.eqb s "").
Definition nonempty_set (s : gset Z) : bool := bool_decide (s ≠ ∅).
Definition nonempty_list {A} (l : list A) : bool :=
  match l with [] => false | _ => true end.

(** Observations on a trace. *)
Definition git_cmds (tr : list event) : list git_cmd :=
  omap (λ ev, match ev with EGit c _ => Some c | _ => None end) tr.

Definition printed (to : stream) (tr : list event) : list string :=
  omap (λ ev, match ev, to with
              | EPrint Stdout l, Stdout => Some l
              | EPrint Stderr l, Stderr => Some l
              | _, _ => None
              end) tr.

Definition cherry_picks (tr : list event) : list (list string) :=
  omap (λ c, match c with CherryPick args => Some args | _ => None end)
    (git_cmds tr).

Definition status_outputs (tr : list event) : list (res string) :=
  omap (λ ev, match ev with EGit Status out => Some out | _ => None end) tr.

Definition http_gets (tr : list event) : list string :=
  omap (λ ev, match ev with EHttpGet u => Some u | _ => None end) tr.

Definition writes (tr : list event) : list (string * string) :=
  omap (λ ev, match ev with EWrite f d => Some (f, d) | _ => None end) tr.

Definition reads (tr : list event) : list string :=
  omap (λ ev, match ev with ERead f => Some f | _ => None end) tr.

Definition log_outputs (tr : list event) : list (res string) :=
  omap (λ ev, match ev with EGit (Log _) out => Some out | _ => None end) tr.

Definition commits (tr : list event) : list (list string) :=
  omap (λ c, match c with Commit args => Some args | _ => None end)
    (git_cmds tr).

Definition popens (tr : list event) : list (list string * string * Z) :=
  omap (λ ev, match ev with
              | EPopen argv _ input rc => Some (argv, input, rc)
              | _ => None
              end) tr.

(** The git commands of a trace that failed. *)
Definition git_failures (tr : list event) : list git_cmd :=
  omap (λ ev, match ev with EGit c (Err _) => Some c | _ => None end) tr.

(** The branch checked out after the commands of a trace, starting on
    [start]: the target of the last checkout that succeeded. *)
Definition branch_after (start : string) (tr : list event) : string :=
  fold_left (λ b ev, match ev with
                     | EGit (Checkout b') (Ok _) => b'
                     | _ => b
                     end) tr start.

End Py.


(** ** Code that reads the same in ghpro/backport.py and ghtools/backport.py *)

Module Shared.
Import Text Re Patterns Py.

(** [int(num) for num in nums]: the first [ValueError] ends it. *)
Fixpoint ints (nums : list (list ascii)) : res (list Z) :=
  match nums with
  | [] => Ok []
  | num :: nums' =>
      match int_of_digits num with
      | None => Err (ValueError (text num))
      | Some n =>
          match ints nums' with
          | Ok l => Ok (n :: l)
          | Err x => Err x
          end
      end
  end.

(** [set(int(num) for num in backport_re.findall(lines))] *)
Definition numbers_of (re : regex) (lines : string) : res (gset Z) :=
  match ints (findall re lines) with
  | Ok l => Ok (list_to_set l)
  | Err x => Err x
  end.

(** [already_backported(repo, branch, since_tag=None)], for the
    [backport_re] of the module it is in. *)
Definition already_backported_with (backport_re : regex) (branch : string)
    (since_tag : option string) : M (gset Z) (gset Z) :=
  since_tag ← match since_tag with
              | None => git (Describe [branch; "--abbrev=0"])
              | Some t => mret t
              end;
  lines ← git (Log [since_tag +:+ ".." +:+ branch; "--oneline"]);
  lift (numbers_of backport_re lines).

(** [should_backport(project, milestone)] *)
Definition should_backport (project milestone : string)
    : M (gset Z) (gset Z) :=
  milestone_id ← ask (λ e, get_milestone_id e project milestone) ≫= lift;
  issues ← ask (λ e, get_issues_list e project milestone_id "closed") ≫= lift;
  is_pr ← ask is_pull_request;
  for_each issues ∅
    (λ issue should_backport,
       if negb (is_pr issue) then mret should_backport
       else
         pr ← ask (λ e, get_pull_request e project (issue_number issue)) ≫= lift;
         if negb (pr_merged pr) then
           print ("Marked PR closed without merge: " +:+ str_of_int (pr_number pr));;
           mret should_backport
         else mret ({[pr_number pr]} ∪ should_backport)).

(** The statements of [tobackport] that follow the computation of
    [already] and [should]. *)
Definition tobackport_report (project milestone : string)
    (already should : gset Z) : M unit unit :=
  let todo := should ∖ already in
  let shouldnt := already ∖ should in
  let ok := already ∩ should in
  ok ← (if nonempty_set shouldnt then
          lt ← ask version_lt;
          '(ok, still_shouldnt) ←
            for_each (sorted shouldnt) (ok, [])
              (λ num '(ok, still_shouldnt),
                 pr ← ask (λ e, get_pull_request e project num) ≫= lift;
                 if match pr_milestone pr with
                    | Some m => lt (milestone_title m) milestone
                    | None => false
                    end
                 then (* ok, marked for backport to an earlier release *)
                   mret ({[num]} ∪ ok, still_shouldnt)
                 else mret (ok, still_shouldnt ++ [num]));
          when (nonempty_list still_shouldnt)
            (print "The following PRs have been backported, but perhaps shouldn't be:";;
             for_each_ still_shouldnt (λ pr, print (str_of_int pr)));;
          mret ok
        else mret ok);
  when (nonempty_set ok)
    (print "The following PRs have been backported";;
     for_each_ (sorted ok) (λ pr, print (str_of_int pr)));;
  if nonempty_set todo then
    print "The following PRs should be backported:";;
    for_each_ (sorted todo) (λ pr, print (str_of_int pr))
  else print "Everything appears up-to-date".

(** [tobackport(project, branch, milestone, since)], for the
    [already_backported] of the module it is in. *)
Definition tobackport_with (backport_re : regex)
    (project branch milestone : string) (since : option string)
    : M unit unit :=
  already ← call (already_backported_with backport_re branch since);
  should ← call (should_backport project milestone);
  tobackport_report project milestone already should.

End Shared.

(** ** ghpro/backport.py *)

Module Ghpro.
Import Text Re Patterns Py.

(** [backport_pr(path, branch, num, project)]: cherry-pick of the merge
    commit. *)
Definition backport_pr (path branch : string) (num : Z) (project : string)
    : M Z Z :=
  current_branch ← ask active_branch;
  when (negb (String.eqb branch current_branch)) (git_ (Checkout branch));;
  (* pull if tracking *)
  tracking ← git (ForEachRef ["--format=%(upstream:short)";
                               "refs/heads/" +:+ branch]);
  (if nonempty_str tracking then git_ Pull
   else print_err ("Branch " +:+ branch +:+ " not tracking upstream."));;
  pr ← ask (λ e, get_pull_request e project num) ≫= lift;
  let sha := pr_merge_commit_sha pr in
  let title := pr_title pr in
  let description := pr_body pr in
  (* remove mentions from description, to avoid pings *)
  description ← method_replace description "@" " ";
  let description := replace_char "#" " " description in
  status ← git Status;
  args ← (if contains "cherry-picking" status then
            when (negb (contains ("cherry-picking commit " +:+ slice_to 6 sha)
                          status))
              (print_err ("I do not appear to be resuming the cherry-pick of "
                          +:+ sha);;
               print_err status;;
               return_ 1);;
            print ("Continuing cherry-pick of " +:+ sha);;
            (* finish interrupted cherry-pick *)
            mret ["--continue"]
          else
            print ("Cherry-picking " +:+ sha);;
            mret ["-m"; "1"; sha]);
  try_except
    (with_environ [("GIT_EDITOR", "true")] (git_ (CherryPick args)))
    (λ e,
       stderr ← stderr_of e;
       print_err (String newline "" +:+ stderr);;
       status' ← git Status;
       print_err (String newline "" +:+ status');;
       argv ← ask sys_argv;
       quote ← ask pipes_quote;
       let cmd := join " " (quote <$> argv) in
       print_err (String newline "" +:+
                  "Patch did not apply. Resolve conflicts (add, not commit), then re-run `"
                  +:+ cmd +:+ "`");;
       return_ 1);;
  (* write the commit message *)
  let msg := "Backport PR #" +:+ str_of_int num +:+ ": " +:+ title
             +:+ String newline (String newline "") +:+ description in
  git_ (Commit ["--amend"; "-m"; msg]);;
  print ("PR #" +:+ str_of_int num +:+ " applied, with msg:");;
  print "";;
  print msg;;
  print "";;
  when (negb (String.eqb branch current_branch)) (git_ (Checkout current_branch));;
  mret 0.

Definition backport_re : regex := backport_re_ghpro.

Definition already_backported : string → option string → M (gset Z) (gset Z) :=
  Shared.already_backported_with backport_re.

Definition tobackport : string → string → string → option string → M unit unit :=
  Shared.tobackport_with backport_re.

End Ghpro.

(** ** ghtools/backport.py *)

Module Ghtools.
Import Text Re Patterns Py.

(** [backport_pr(path, branch, num, project)]: application of the patch
    of the pull request. *)
Definition backport_pr (path branch : string) (num : Z) (project : string)
    : M Z Z :=
  current_branch ← ask active_branch;
  when (negb (String.eqb branch current_branch)) (git_ (Checkout branch));;
  git_ Pull;;
  pr ← ask (λ e, get_pull_request e project num) ≫= lift;
  files ← ask (λ e, get_pull_request_files e project num) ≫= lift;
  let patch_url := pr_patch_url pr in
  let title := pr_title pr in
  let description := pr_body pr in
  (* remove mentions from description, to avoid pings *)
  description ← method_replace description "@" "_";
  let fname := "PR" +:+ str_of_int num +:+ ".patch" in
  found ← path_exists fname;
  patch ← (if (found : bool) then
             print ("using patch from " +:+ fname);;
             read_file fname
           else
             r ← http_get patch_url;
             raise_for_status r;;
             mret (content r));
  let msg := "Backport PR #" +:+ str_of_int num +:+ ": " +:+ title
             +:+ String newline (String newline "") +:+ description in
  returncode ← popen ["git"; "apply"; "--check"; "--verbose"] None patch;
  when (negb (returncode =? 0))
    (print ("patch did not apply, saving to " +:+ fname);;
     print ("edit " +:+ fname +:+ " until `cat " +:+ fname
            +:+ " | git apply --check` succeeds");;
     print ("then run tools/backport_pr.py " +:+ str_of_int num +:+ " again");;
     found' ← path_exists fname;
     when (negb found') (write_file fname patch);;
     return_ 1);;
  popen ["git"; "apply"] (Some path) patch;;
  let filenames := filename <$> files in
  git_ (Add filenames);;
  git_ (Commit ["-m"; msg]);;
  print ("PR #" +:+ str_of_int num +:+ " applied, with msg:");;
  print "";;
  print msg;;
  print "";;
  when (negb (String.eqb branch current_branch)) (git_ (Checkout current_branch));;
  mret 0.

Definition backport_re : regex := backport_re_ghtools.

Definition already_backported : string → option string → M (gset Z) (gset Z) :=
  Shared.already_backported_with backport_re.

Definition tobackport : string → string → string → option string → M unit unit :=
  Shared.tobackport_with backport_re.

End Ghtools.

(** ** ghpro/utils.py *)

Module Utils.
Import Text Re Patterns Py.

(** [remotes[0]] *)
Definition first_of {R A} (l : list A) : M R A :=
  match l with
  | x :: _ => mret x
  | [] => raise (IndexError "list index out of range")
  end.

(** [guess_project(path='.')] *)
Definition guess_project (path : string) : M string string :=
  all ← ask Py.remotes;
  let remotes := filter (λ r, remote_name r = "upstream") all in
  let remotes := if nonempty_list remotes then remotes
                 else filter (λ r, remote_name r = "origin") all in
  remote ← first_of remotes;
  project ← match match_at _project_pat (chars (remote_url remote)) with
            | Some m => mret (text (group1 m))
            | None =>
                raise (AttributeError "'NoneType' object has no attribute 'group'")
            end;
  mret project.

End Utils.

(** ** Vocabulary of the statements *)

Module Spec.
Import Text Re Patterns Py.

(** The spellings that [(?:[Bb]ackport|[Mm]erge)] accepts. *)
Definition keywords : list string := ["Backport"; "backport"; "Merge"; "merge"].

Definition mentions_keyword (lines : string) : bool :=
  existsb (λ kw, contains kw lines) keywords.

(** The text matched by either marker pattern: a keyword, characters of
    one line, the digits [ds] of the group, and [rest]. *)
Definition marker (t ds rest : list ascii) : Prop :=
  ∃ kw mid, kw ∈ keywords ∧ t = chars kw ++ mid ++ ds ++ rest
    ∧ forallb dot mid = true ∧ ds ≠ [] ∧ forallb is_digit ds = true.

(** The marker pattern read as case-insensitive:
    [re.compile(r"(?:backport|merge).*?(\d+)", re.IGNORECASE)]. *)
Definition backport_re_nocase : regex :=
  Cat (Alt (lit_nocase "backport") (lit_nocase "merge"))
    (Cat (Rep false dot) (Group (plus is_digit))).

(** [s] with every character replaced by its image. *)
Fixpoint map_chars (f : ascii → ascii) (s : string) : string :=
  match s with
  | EmptyString => EmptyString
  | String c s' => String (f c) (map_chars f s')
  end.

(** The commit message of a backport. *)
Definition backport_message (num : Z) (title body : string) : string :=
  "Backport PR #" +:+ str_of_int num +:+ ": " +:+ title
  +:+ String newline (String newline "") +:+ body.

(** The lines of a [tobackport] report for the three groups. *)
Definition report_lines (still_shouldnt : list Z) (ok todo : gset Z)
    : list string :=
  (match still_shouldnt with
   | [] => []
   | _ => "The following PRs have been backported, but perhaps shouldn't be:"
          :: (str_of_int <$> still_shouldnt)
   end)
  ++ (if decide (ok = ∅) then []
      else "The following PRs have been backported"
           :: (str_of_int <$> sorted ok))
  ++ (if decide (todo = ∅) then ["Everything appears up-to-date"]
      else "The following PRs should be backported:"
           :: (str_of_int <$> sorted todo)).

(** The remote [guess_project] reads: the first one named upstream, or
    else the first one named origin. *)
Definition chosen_remote (all : list remote) : option remote :=
  match filter (λ r, remote_name r = "upstream") all with
  | r :: _ => Some r
  | [] => head (filter (λ r, remote_name r = "origin") all)
  end.

(** The URLs that [_project_pat] matches with [project] as its group. *)
Definition project_url (url project : list ascii) : Prop :=
  ∃ pre gh c com sep git rest,
    url = pre ++ gh ++ [c] ++ com ++ [sep] ++ project ++ git ++ rest
    ∧ forallb dot pre = true
    ∧ lower_all gh = chars "github"
    ∧ dot c = true
    ∧ lower_all com = chars "com"
    ∧ (sep = ":"%char ∨ sep = "/"%char)
    ∧ forallb dot project = true
    ∧ lower_all git = chars ".git".

(** The URL of a project on github.com, in the two forms that
    ghpro/utils.py documents: on one line, [github.com], a colon or a
    slash, [project] and [.git], in any letter case, and then anything. *)
Definition github_url (url project : list ascii) : Prop :=
  ∃ pre host sep git rest,
    url = pre ++ host ++ [sep] ++ project ++ git ++ rest
    ∧ forallb dot pre = true
    ∧ lower_all host = chars "github.com"
    ∧ (sep = ":"%char ∨ sep = "/"%char)
    ∧ forallb dot project = true
    ∧ lower_all git = chars ".git".

(** A URL that names [project]: it contains [github], later [com]
    followed by a colon or a slash, [project] (on one line) and [.git],
    in any letter case. *)
Definition names_project (url project : list ascii) : Prop :=
  ∃ a gh b com sep git rest,
    url = a ++ gh ++ b ++ com ++ [sep] ++ project ++ git ++ rest
    ∧ lower_all gh = chars "github"
    ∧ lower_all com = chars "com"
    ∧ (sep = ":"%char ∨ sep = "/"%char)
    ∧ forallb dot project = true
    ∧ lower_all git = chars ".git".

(** The body of a commit message as each variant sanitizes it. *)
Definition sanitize_ghpro : string → string :=
  map_chars (λ c, if Ascii.eqb c "@" || Ascii.eqb c "#" then " "%char else c).
Definition sanitize_ghtools : string → string :=
  map_chars (λ c, if Ascii.eqb c "@" then "_"%char else c).

(** The file in which the patch of a pull request is kept. *)
Definition patch_file (num : Z) : string := "PR" +:+ str_of_int num +:+ ".patch".

(** What [backport_pr] prints when the patch does not apply. *)
Definition check_failed_lines (num : Z) : list string :=
  ["patch did not apply, saving to " +:+ patch_file num;
   "edit " +:+ patch_file num +:+ " until `cat " +:+ patch_file num
     +:+ " | git apply --check` succeeds";
   "then run tools/backport_pr.py " +:+ str_of_int num +:+ " again"].

(** A backported pull request that was not asked for is accepted when
    it carries a milestone earlier than the target. *)
Definition accepted (e : env) (project milestone : string) (n : Z) : bool :=
  match get_pull_request e project n with
  | Ok pr =>
      match pr_milestone pr with
      | Some m => version_lt e (milestone_title m) milestone
      | None => false
      end
  | Err _ => false
  end.

(** The world after printing [lines] on the standard output. *)
Definition print_all (lines : list string) (w : world) : world :=
  {| trace := trace w ++ (EPrint Stdout <$> lines); files := files w |}.

End Spec.

(** ** Sample environments *)

Module Samples.
Import Text Re Patterns Py.

Definition pr123 (body : option string) (m : option milestone) : pull_request :=
  {| pr_number := 123; pr_title := "Fix the frobnicator"; pr_body := body;
     pr_merged := true; pr_merge_commit_sha := "abcdef1234567890";
     pr_patch_url := "https://github.com/o/r/pull/123.patch";
     pr_milestone := m |}.

(** A repository on [master] whose branches track an upstream; [status]
    and the outcome of cherry-pick are given, every other command
    succeeds; the log is [log]. *)
Definition repo (status log : string) (cherry : res string)
    (pr : Z → res pull_request) (resp : response) (check : Z)
    (rs : list remote) : env :=
  {| active_branch := "master";
     git_oracle := λ _ c, match c with
                          | Status => Ok status
                          | CherryPick _ => cherry
                          | ForEachRef _ => Ok "origin/0.13.x"
                          | Log _ => Ok log
                          | Describe _ => Ok "rel-0.13.0"
                          | _ => Ok ""
                          end;
     remotes := rs;
     get_pull_request := λ _ n, pr n;
     get_pull_request_files := λ _ _, Ok [{| filename := "frob.py" |}];
     get_milestone_id := λ _ _, Ok 7;
     get_issues_list := λ _ _ _,
       Ok [{| issue_number := 123 |}; {| issue_number := 55 |}];
     is_pull_request := λ _, true;
     requests_get := λ _, Ok resp;
     popen_oracle := λ _ argv _,
       if bool_decide (argv = ["git"; "apply"; "--check"; "--verbose"])
       then check else 0;
     sys_argv := ["backport-pr"; "apply"; "0.13.x"; "123"];
     pipes_quote := λ s, s;
     version_lt := λ a b, bool_decide (a = "0.12" ∧ b = "0.13.1") |}.

Definition ok200 : response := {| status_code := 200; content := "diff --git" |}.

(** A repository whose one-line log is [log]. *)
Definition logged (log : string) : env :=
  repo "" log (Ok "") (λ _, Ok (pr123 None None)) ok200 0 [].

(** A repository with the remotes [rs]. *)
Definition with_remotes (rs : list remote) : env :=
  repo "" "" (Ok "") (λ _, Ok (pr123 None None))
    ok200 0 rs.

(** The two forms of URL that ghpro/utils.py documents. *)
Definition documented_remotes : list remote :=
  [{| remote_name := "origin";
      remote_url := "git@github.com:minrk/notebook.git" |};
   {| remote_name := "upstream";
      remote_url := "https://github.com/jupyter/notebook.git" |}].

Definition nl : string := String newline "".

(** The pull requests of the hosting API: #9 was milestoned for 0.12,
    #77 has no milestone, the others are milestoned for 0.13.1. *)
Definition pulls (body : option string) (n : Z) : res pull_request :=
  Ok {| pr_number := n; pr_title := "Fix the frobnicator"; pr_body := body;
        pr_merged := true; pr_merge_commit_sha := "abcdef1234567890";
        pr_patch_url := "https://github.com/o/r/pull/123.patch";
        pr_milestone :=
          if bool_decide (n = 9) then Some {| milestone_title := "0.12" |}
          else if bool_decide (n = 77) then None
          else Some {| milestone_title := "0.13.1" |} |}.

(** A repository in which a backport is applied. *)
Definition applying (status : string) (cherry : res string)
    (body : option string) (check : Z) : env :=
  repo status "" cherry (pulls body) ok200 check [].

(** A repository whose log is reconciled with the milestone; the closed
    issues of the milestone are #123 and #55. *)
Definition reconciling (log : string) : env :=
  repo "" log (Ok "") (pulls None) ok200 0 [].

Definition log_behind : string :=
  "a1 Merge pull request #77 from x/y" +:+ nl +:+
  "b2 Backport PR #55: z" +:+ nl +:+
  "c3 Merge pull request #9 from q/r" +:+ nl.

Definition log_level : string :=
  "a1 Merge pull request #123 from x/y" +:+ nl +:+
  "b2 Backport PR #55: z" +:+ nl.

End Samples.

(** ** Further observations on a trace *)

Module Observe.
Import Text Py.








End Observe.

(** ** What should_backport takes from a closed issue *)

Module ShouldSpec.
Import Text Py.


End ShouldSpec.

(** ** A hosting API that fails *)

Module MoreSamples.
Import Text Py Samples.

End MoreSamples.

(** * Properties *)

(** ** Symbolic execution *)

Module Exec.
Import Py.

(** Unfold the monad of a straight-line program. *)
Ltac unfold_monad :=
  cbv beta iota delta
    [run call mbind mret M_bind M_ret raise return_ lift ask emit when
     try_except with_environ git git_ print print_err path_exists read_file
     write_file popen http_get raise_for_status method_replace stderr_of
     log_event] in *.

(** Case analysis on the innermost scrutinee of a hypothesis. *)
Ltac case_step H :=
  match type of H with
  | context [match ?x with _ => _ end] =>
      lazymatch x with
      | context [match _ with _ => _ end] => fail
      | _ => destruct x eqn:?; simpl in H
      end
  end.

End Exec.

(** ** The matcher agrees with the declarative semantics *)

Module ReFacts.
Import Text Re Patterns Py Spec.

Lemma rep_loop_sound {R} greedy p (k : @cont R) s : ∀ pos g x,
  rep_loop greedy p pos s g k = Some x →
  ∃ w s', s = w ++ s' ∧ forallb p w = true ∧ k (pos + length w)%nat s' g = Some x.
Proof.
  induction s as [|c s IH]; intros pos g x H; simpl in H.
  - exists [], []. rewrite Nat.add_0_r. done.
  - assert (Hstop : k pos (c :: s) g = Some x →
      ∃ w s', c :: s = w ++ s' ∧ forallb p w = true
              ∧ k (pos + length w)%nat s' g = Some x).
    { intros Hk. exists [], (c :: s). rewrite Nat.add_0_r. done. }
    destruct (p c) eqn:Hp; [|by auto].
    assert (Hmore : rep_loop greedy p (S pos) s g k = Some x →
      ∃ w s', c :: s = w ++ s' ∧ forallb p w = true
              ∧ k (pos + length w)%nat s' g = Some x).
    { intros Hr. destruct (IH _ _ _ Hr) as (w & s' & -> & Hw & Hk).
      exists (c :: w), s'. simpl. rewrite Hp, Hw.
      replace (pos + S (length w))%nat with (S pos + length w)%nat by lia. done. }
    destruct greedy.
    + destruct (rep_loop true p (S pos) s g k) eqn:E; [injection H as ->; auto | auto].
    + destruct (k pos (c :: s) g) eqn:E; [injection H as ->; auto | auto].
Qed.

Lemma matchK_sound {R} r : ∀ pos s g (k : @cont R) x,
  matchK r pos s g k = Some x →
  ∃ pos' s' g', matches r pos s g pos' s' g' ∧ k pos' s' g' = Some x.
Proof.
  induction r as [|p|a IHa b IHb|a IHa b IHb|greedy p|a IHa];
    intros pos s g k x H; simpl in H.
  - by exists pos, s, g.
  - destruct s as [|c s]; [done|]. destruct (p c) eqn:Hp; [|done].
    exists (S pos), s, g. split; [|done]. by exists c.
  - apply IHa in H as (pos1 & s1 & g1 & Ha & H).
    apply IHb in H as (pos' & s' & g' & Hb & H).
    exists pos', s', g'. split; [|done]. by exists pos1, s1, g1.
  - destruct (matchK a pos s g k) eqn:E.
    + injection H as ->. apply IHa in E as (pos' & s' & g' & Ha & Hk).
      exists pos', s', g'. simpl. auto.
    + apply IHb in H as (pos' & s' & g' & Hb & Hk).
      exists pos', s', g'. simpl. auto.
  - apply rep_loop_sound in H as (w & s' & -> & Hw & Hk).
    exists (pos + length w)%nat, s', g. split; [|done]. by exists w.
  - apply IHa in H as (pos' & s' & g' & Ha & Hk).
    exists pos', s', (Some (take (pos' - pos) s)). split; [|done]. by exists g'.
Qed.

Lemma matches_split r : ∀ pos s g pos' s' g',
  matches r pos s g pos' s' g' →
  ∃ w, s = w ++ s' ∧ pos' = (pos + length w)%nat.
Proof.
  induction r as [|p|a IHa b IHb|a IHa b IHb|greedy p|a IHa];
    intros pos s g pos' s' g' H; simpl in H.
  - destruct H as (-> & -> & _). exists []. by rewrite Nat.add_0_r.
  - destruct H as (c & -> & _ & -> & _). exists [c]. simpl. split; [done|lia].
  - destruct H as (pos1 & s1 & g1 & Ha & Hb).
    apply IHa in Ha as (w1 & -> & ->). apply IHb in Hb as (w2 & -> & ->).
    exists (w1 ++ w2). rewrite length_app, <- app_assoc. split; [done|lia].
  - destruct H as [H|H]; eauto.
  - destruct H as (w & -> & _ & -> & _). by exists w.
  - destruct H as (g0 & H & _). eauto.
Qed.

Lemma rep_loop_complete {R} greedy p (k : @cont R) w : ∀ pos s' g,
  forallb p w = true →
  is_Some (k (pos + length w)%nat s' g) →
  is_Some (rep_loop greedy p pos (w ++ s') g k).
Proof.
  induction w as [|c w IH]; intros pos s' g Hw Hk; simpl in *.
  - rewrite Nat.add_0_r in Hk. destruct s' as [|c s']; simpl; [done|].
    destruct (p c); [|done]. destruct greedy.
    + destruct (rep_loop true p (S pos) s' g k); [by eexists|done].
    + destruct Hk as [y ->]. by eexists.
  - apply andb_true_iff in Hw as [Hc Hw]. rewrite Hc.
    replace (pos + S (length w))%nat with (S pos + length w)%nat in Hk by lia.
    specialize (IH (S pos) s' g Hw Hk). destruct IH as [y Hy].
    destruct greedy.
    + rewrite Hy. by eexists.
    + destruct (k pos (c :: w ++ s') g); [by eexists|]. rewrite Hy. by eexists.
Qed.

Lemma matchK_complete {R} r : ∀ pos s g pos' s' g' (k : @cont R),
  matches r pos s g pos' s' g' →
  is_Some (k pos' s' g') →
  is_Some (matchK r pos s g k).
Proof.
  induction r as [|p|a IHa b IHb|a IHa b IHb|greedy p|a IHa];
    intros pos s g pos' s' g' k H Hk; simpl in *.
  - by destruct H as (-> & -> & ->).
  - destruct H as (c & -> & Hp & -> & ->). by rewrite Hp.
  - destruct H as (pos1 & s1 & g1 & Ha & Hb).
    eapply IHa; [exact Ha|]. simpl. eapply IHb; eauto.
  - destruct (matchK a pos s g k) eqn:E; [by eexists|].
    destruct H as [H|H].
    + eapply IHa in H; [|exact Hk]. rewrite E in H. by destruct H.
    + eapply IHb; eauto.
  - destruct H as (w & -> & Hw & -> & ->). by apply rep_loop_complete.
  - destruct H as (g0 & Ha & ->). eapply IHa; [exact Ha|]. done.
Qed.


Lemma starts_with_app p s : starts_with p (p ++ s) = true.
Proof. induction p as [|a p IH]; simpl; [done|]. by rewrite Ascii.eqb_refl. Qed.

Lemma starts_with_inv p : ∀ s, starts_with p s = true → ∃ t, s = p ++ t.
Proof.
  induction p as [|a p IH]; intros s H; simpl in *; [by exists s|].
  destruct s as [|b s]; [done|]. apply andb_true_iff in H as [Hab H].
  apply Ascii.eqb_eq in Hab as ->. destruct (IH _ H) as [t ->]. by exists t.
Qed.

Lemma occurs_app needle pre post : occurs needle (pre ++ needle ++ post) = true.
Proof.
  induction pre as [|c pre IH]; simpl.
  - destruct (needle ++ post) eqn:E; simpl; rewrite <- E, starts_with_app; done.
  - rewrite IH. apply orb_true_r.
Qed.

Lemma occurs_inv needle : ∀ hay,
  occurs needle hay = true → ∃ pre post, hay = pre ++ needle ++ post.
Proof.
  induction hay as [|c hay IH]; intros H; simpl in H.
  - rewrite orb_false_r in H. apply starts_with_inv in H as [t ->].
    by exists [], t.
  - apply orb_true_iff in H as [H|H].
    + apply starts_with_inv in H as [t ->]. by exists [], t.
    + destruct (IH H) as (pre & post & ->). by exists (c :: pre), post.
Qed.

Lemma chars_text l : chars (text l) = l.
Proof. apply list_ascii_of_string_of_list_ascii. Qed.

Lemma text_chars s : text (chars s) = s.
Proof. apply string_of_list_ascii_of_string. Qed.

Lemma chars_app s t : chars (s +:+ t) = chars s ++ chars t.
Proof. induction s as [|c s IH]; simpl; [done|]. unfold chars in *. simpl. by rewrite IH. Qed.

(** findall *)
Lemma findall_go_elem r s : ∀ skip y,
  y ∈ findall_go r skip s →
  ∃ pre t m, s = pre ++ t ∧ match_at r t = Some m ∧ y = group1 m.
Proof.
  induction s as [|c s IH]; intros skip y Hy; simpl in Hy.
  - destruct skip; [|by apply elem_of_nil in Hy].
    destruct (match_at r []) as [m|] eqn:E; [|by apply elem_of_nil in Hy].
    apply list_elem_of_singleton in Hy as ->. by exists [], [], m.
  - assert (Hrec : ∀ n, y ∈ findall_go r n s →
        ∃ pre t m, c :: s = pre ++ t ∧ match_at r t = Some m ∧ y = group1 m).
    { intros n Hn. destruct (IH _ _ Hn) as (pre & t & m & -> & Hm & ->).
      by exists (c :: pre), t, m. }
    destruct skip; [|by eauto].
    destruct (match_at r (c :: s)) as [m|] eqn:E; [|by eauto].
    apply elem_of_cons in Hy as [->|Hy]; [|by eauto].
    by exists [], (c :: s), m.
Qed.

Lemma findall_go_nil r s :
  (∀ pre t, s = pre ++ t → match_at r t = None) → ∀ skip, findall_go r skip s = [].
Proof.
  induction s as [|c s IH]; intros H skip; simpl.
  - destruct skip; [|done]. by rewrite (H [] []).
  - assert (Hs : ∀ n, findall_go r n s = []).
    { apply IH. intros pre t ->. by apply (H (c :: pre)). }
    destruct skip; [|done]. by rewrite (H [] (c :: s)), Hs.
Qed.


Lemma lit_matches str : ∀ pos s g pos' s' g',
  matches (lit str) pos s g pos' s' g' →
  s = chars str ++ s' ∧ pos' = (pos + length (chars str))%nat ∧ g' = g.
Proof.
  induction str as [|c str IH]; intros pos s g pos' s' g' H; simpl in H.
  - destruct H as (-> & -> & ->). simpl. by rewrite Nat.add_0_r.
  - destruct H as (pos1 & s1 & g1 & (d & -> & Hd & -> & ->) & H).
    apply IH in H as (-> & -> & ->). apply Ascii.eqb_eq in Hd as ->.
    simpl. split; [done|]. split; [lia|done].
Qed.

Lemma lit_nocase_matches str : ∀ pos s g pos' s' g',
  matches (lit_nocase str) pos s g pos' s' g' →
  ∃ w, s = w ++ s' ∧ lower_all w = lower_all (chars str)
       ∧ pos' = (pos + length w)%nat ∧ g' = g.
Proof.
  induction str as [|c str IH]; intros pos s g pos' s' g' H; simpl in H.
  - destruct H as (-> & -> & ->). exists []. simpl. by rewrite Nat.add_0_r.
  - destruct H as (pos1 & s1 & g1 & (d & -> & Hd & -> & ->) & H).
    apply IH in H as (w & -> & Hw & -> & ->). apply Ascii.eqb_eq in Hd.
    exists (d :: w). simpl. unfold lower_all in *. simpl. rewrite Hd, Hw.
    split; [done|]. split; [done|]. split; [lia|done].
Qed.

Lemma lit_nocase_intro str : ∀ w pos s' g,
  lower_all w = lower_all (chars str) →
  matches (lit_nocase str) pos (w ++ s') g (pos + length w)%nat s' g.
Proof.
  induction str as [|c str IH]; intros w pos s' g Hw; simpl.
  - destruct w; [|done]. simpl. by rewrite Nat.add_0_r.
  - destruct w as [|d w]; [done|]. unfold lower_all in Hw. simpl in Hw.
    injection Hw as Hd Hw. exists (S pos), (w ++ s'), g. split.
    + exists d. unfold one_nocase. rewrite Hd, Ascii.eqb_refl. done.
    + replace (pos + length (d :: w))%nat with (S pos + length w)%nat
        by (simpl; lia).
      by apply IH.
Qed.

Lemma either_true c d x : either c d x = true → x = c ∨ x = d.
Proof.
  unfold either. intros H. apply orb_true_iff in H as [H|H];
    apply Ascii.eqb_eq in H; auto.
Qed.

Lemma keyword_matches pos s g pos' s' g' :
  matches keyword pos s g pos' s' g' →
  ∃ kw, kw ∈ keywords ∧ s = chars kw ++ s'
        ∧ pos' = (pos + length (chars kw))%nat ∧ g' = g.
Proof.
  intros [H|H]; destruct H as (pos1 & s1 & g1 & (c & -> & Hc & -> & ->) & H);
    apply lit_matches in H as (-> & -> & ->);
    apply either_true in Hc as [-> | ->].
  - exists "Backport". split; [set_solver|]. simpl. split; [done|]. split; [lia|done].
  - exists "backport". split; [set_solver|]. simpl. split; [done|]. split; [lia|done].
  - exists "Merge". split; [set_solver|]. simpl. split; [done|]. split; [lia|done].
  - exists "merge". split; [set_solver|]. simpl. split; [done|]. split; [lia|done].
Qed.

Lemma plus_matches p pos s g pos' s' g' :
  matches (plus p) pos s g pos' s' g' →
  ∃ w, w ≠ [] ∧ forallb p w = true ∧ s = w ++ s'
       ∧ pos' = (pos + length w)%nat ∧ g' = g.
Proof.
  intros (pos1 & s1 & g1 & (c & -> & Hc & -> & ->) & (w & -> & Hw & -> & ->)).
  exists (c :: w). simpl. rewrite Hc, Hw. split; [done|]. split; [done|].
  split; [done|]. split; [lia|done].
Qed.

Lemma backport_re_ghtools_match t m :
  match_at backport_re_ghtools t = Some m →
  ∃ rest, marker t (group1 m) rest.
Proof.
  unfold match_at. intros H.
  apply matchK_sound in H as (pos' & s' & g' & H & Hk). injection Hk as <-.
  destruct H as (pos1 & s1 & g1 & Hkw & pos2 & s2 & g2 & Hmid & g0 & Hds & ->).
  apply keyword_matches in Hkw as (kw & Hkw & -> & -> & ->).
  destruct Hmid as (mid & -> & Hmid & -> & ->).
  apply plus_matches in Hds as (ds & Hne & Hds & -> & -> & ->).
  exists s', kw, mid. unfold group1. simpl.
  replace (length (chars kw) + length mid + length ds
           - (length (chars kw) + length mid))%nat with (length ds) by lia.
  rewrite take_app_length. done.
Qed.

Lemma backport_re_ghpro_match t m :
  match_at backport_re_ghpro t = Some m →
  ∃ c rest, c ≠ "."%char ∧ marker t (group1 m) (c :: rest).
Proof.
  unfold match_at. intros H.
  apply matchK_sound in H as (pos' & s' & g' & H & Hk). injection Hk as <-.
  destruct H as (pos1 & s1 & g1 & Hkw & pos2 & s2 & g2 & Hmid
                 & pos3 & s3 & g3 & (g0 & Hds & ->) & (c & -> & Hc & -> & ->)).
  apply keyword_matches in Hkw as (kw & Hkw & -> & -> & ->).
  destruct Hmid as (mid & -> & Hmid & -> & ->).
  apply plus_matches in Hds as (ds & Hne & Hds & -> & -> & ->).
  exists c, s'. split.
  { intros ->. done. }
  exists kw, mid. unfold group1. simpl.
  replace (length (chars kw) + length mid + length ds
           - (length (chars kw) + length mid))%nat with (length ds) by lia.
  rewrite take_app_length. done.
Qed.

End ReFacts.

(** ** already_backported *)

Module Extract.
Import Text Re Patterns Py Spec Shared ReFacts Samples Exec.

Lemma already_backported_run env fs re branch since r w lines :
  run env fs (already_backported_with re branch since) = (r, w) →
  log_outputs (trace w) = [Ok lines] →
  r = numbers_of re lines.
Proof.
  unfold already_backported_with. intros Hrun Hlog.
  destruct since as [tag|]; unfold_monad; simpl in Hrun;
    repeat case_step Hrun; simplify_eq; simpl in *; simplify_eq; done.
Qed.

Lemma ints_ok l :
  (∀ y, y ∈ l → is_Some (int_of_digits y)) →
  ∃ zs, ints l = Ok zs
        ∧ ∀ n, n ∈ zs ↔ ∃ y, y ∈ l ∧ int_of_digits y = Some n.
Proof.
  induction l as [|y l IH]; intros H; simpl.
  - exists []. split; [done|]. intros n. split; [by intros ?%elem_of_nil|].
    intros (y & ?%elem_of_nil & _). done.
  - destruct (H y) as [n Hn]; [by left|]. rewrite Hn.
    destruct IH as (zs & -> & Hzs); [intros; apply H; by right|].
    exists (n :: zs). split; [done|]. intros k. rewrite elem_of_cons, Hzs. split.
    + intros [->|(z & Hz & Hk)]; [exists y; split; [by left|done]|].
      exists z. split; [by right|done].
    + intros (z & [->|Hz]%elem_of_cons & Hk); [left; congruence|right; eauto].
Qed.

Lemma int_of_digits_ok ds :
  ds ≠ [] → forallb is_digit ds = true → is_Some (int_of_digits ds).
Proof.
  intros Hne Hds. unfold int_of_digits. destruct ds; [done|].
  rewrite Hds. by eexists.
Qed.

(** Every text found by a marker pattern is a run of digits that follows a
    keyword on the same line. *)
Lemma findall_marker re lines y :
  re = backport_re_ghpro ∨ re = backport_re_ghtools →
  y ∈ findall re lines →
  ∃ pre t rest, chars lines = pre ++ t ∧ marker t y rest.
Proof.
  intros Hre Hy. apply findall_go_elem in Hy as (pre & t & m & Ht & Hm & ->).
  exists pre, t. destruct Hre as [-> | ->].
  - apply backport_re_ghpro_match in Hm as (c & rest & _ & Hm). eauto.
  - apply backport_re_ghtools_match in Hm as (rest & Hm). eauto.
Qed.

Lemma marker_mentions lines pre t ds rest :
  chars lines = pre ++ t → marker t ds rest → mentions_keyword lines = true.
Proof.
  intros Hl (kw & mid & Hkw & -> & _). unfold mentions_keyword.
  apply existsb_exists. exists kw. split; [by apply list_elem_of_In|].
  unfold contains. rewrite Hl. apply occurs_app.
Qed.

Lemma findall_no_keyword re lines :
  re = backport_re_ghpro ∨ re = backport_re_ghtools →
  mentions_keyword lines = false → findall re lines = [].
Proof.
  intros Hre Hno. apply findall_go_nil. intros pre t Ht.
  destruct (match_at re t) as [m|] eqn:Hm; [|done].
  assert (∃ rest, marker t (group1 m) rest) as [rest Hmk].
  { destruct Hre as [-> | ->].
    - apply backport_re_ghpro_match in Hm as (c & rest & _ & Hm). eauto.
    - apply backport_re_ghtools_match in Hm as (rest & Hm). eauto. }
  rewrite (marker_mentions _ _ _ _ _ Ht Hmk) in Hno. done.
Qed.

Lemma findall_merge_55 re post :
  re = backport_re_ghpro ∨ re = backport_re_ghtools →
  ∃ l, findall re ("abc1234 Merge pull request #55 from " +:+ post)
       = chars "55" :: l.
Proof.
  intros [-> | ->]; unfold findall; rewrite chars_app; eexists; lazy; reflexivity.
Qed.

Lemma numbers_of_spec re lines :
  re = backport_re_ghpro ∨ re = backport_re_ghtools →
  ∃ S, numbers_of re lines = Ok S
       ∧ ∀ n, n ∈ S ↔ ∃ num, num ∈ findall re lines ∧ int_of_digits num = Some n.
Proof.
  intros Hre. unfold numbers_of.
  destruct (ints_ok (findall re lines)) as (zs & -> & Hzs).
  { intros y Hy. apply (findall_marker _ _ _ Hre) in Hy
      as (pre & t & rest & _ & kw & mid & _ & _ & _ & Hne & Hds).
    by apply int_of_digits_ok. }
  exists (list_to_set zs). split; [done|]. intros n.
  rewrite elem_of_list_to_set. apply Hzs.
Qed.


(** C5 (as amended).  The result of [already_backported], in both
    variants, is the set of the integers that [backport_re] finds in the
    one-line log: each of them is a run of digits that follows, on the
    same line, one of the keywords Backport, backport, Merge or merge
    (only the initial letter may be in either case); a log that contains
    none of these four spellings gives the empty set, and a log that
    starts with "abc1234 Merge pull request #55 from " contributes 55. *)
Theorem already_backported_marked_numbers re env fs branch since r w lines :
  re = Ghpro.backport_re ∨ re = Ghtools.backport_re →
  run env fs (already_backported_with re branch since) = (r, w) →
  log_outputs (trace w) = [Ok lines] →
  ∃ S, r = Ok S
    ∧ (∀ n, n ∈ S ↔ ∃ num, num ∈ findall re lines ∧ int_of_digits num = Some n)
    ∧ (∀ n, n ∈ S → ∃ pre t ds rest,
         chars lines = pre ++ t ∧ marker t ds rest ∧ int_of_digits ds = Some n)
    ∧ (mentions_keyword lines = false → S = ∅)
    ∧ (∀ post, lines = "abc1234 Merge pull request #55 from " +:+ post → 55 ∈ S).
Proof.
  intros Hre Hrun Hlog.
  rewrite (already_backported_run _ _ _ _ _ _ _ _ Hrun Hlog).
  destruct (numbers_of_spec re lines Hre) as (S & -> & HS).
  exists S. split; [done|]. split; [done|]. split; [|split].
  - intros n Hn. destruct (proj1 (HS n) Hn) as (num & Hnum & Hn').
    apply (findall_marker _ _ _ Hre) in Hnum as (pre & t & rest & Ht & Hm).
    by exists pre, t, num, rest.
  - intros Hno. apply set_eq. intros n. rewrite HS.
    rewrite (findall_no_keyword _ _ Hre Hno). set_solver.
  - intros post ->. apply HS. exists (chars "55").
    destruct (findall_merge_55 re post Hre) as [l ->]. split; [by left|done].
Qed.

Lemma already_backported_marked_numbers_witness :
  ∃ S, fst (run (logged "abc1234 Merge pull request #55 from a/b") ∅ (Ghpro.already_backported "0.13.x" None)) = Ok S
       ∧ 55 ∈ S.
Proof.
  destruct (already_backported_marked_numbers Ghpro.backport_re (logged "abc1234 Merge pull request #55 from a/b") ∅
              "0.13.x" None _ _ "abc1234 Merge pull request #55 from a/b"
              (or_introl eq_refl) eq_refl eq_refl)
    as (S & HS & _ & _ & _ & H55).
  exists S. split; [exact HS|]. by apply (H55 "a/b").
Defined.

(** The pattern is not case-insensitive: a log with MERGE in capitals
    gives nothing, where a case-insensitive pattern finds 55. *)
Lemma already_backported_case_sensitive :
  numbers_of backport_re_nocase "abc1234 MERGE pull request #55 from a/b"
    = Ok {[55]}
  ∧ fst (run (logged "abc1234 MERGE pull request #55 from a/b") ∅ (Ghpro.already_backported "0.13.x" None)) = Ok ∅
  ∧ fst (run (logged "abc1234 MERGE pull request #55 from a/b") ∅ (Ghtools.already_backported "0.13.x" None)) = Ok ∅.
Proof. vm_compute. done. Qed.

End Extract.

(** ** The two variants of already_backported *)

Module Variants.
Import Text Re Patterns Py Spec Shared ReFacts Samples Extract.

Lemma rep_greedy_all {R} p (k : @cont R) w : ∀ pos g x,
  forallb p w = true →
  k (pos + length w)%nat [] g = Some x →
  rep_loop true p pos w g k = Some x.
Proof.
  induction w as [|c w IH]; intros pos g x Hw Hk; simpl in *.
  - by rewrite Nat.add_0_r in Hk.
  - apply andb_true_iff in Hw as [-> Hw].
    rewrite (IH (S pos) g x Hw); [done|].
    by replace (S pos + length w)%nat with (pos + S (length w))%nat by lia.
Qed.

Lemma rep_greedy_last {R} p (k : @cont R) w d : ∀ pos g x,
  forallb p w = true → p d = true →
  k (pos + length w + 1)%nat [] g = None →
  k (pos + length w)%nat [d] g = Some x →
  rep_loop true p pos (w ++ [d]) g k = Some x.
Proof.
  induction w as [|c w IH]; intros pos g x Hw Hd Hend Hk; simpl in *.
  - rewrite Hd. rewrite Nat.add_0_r in *.
    replace (S pos) with (pos + 1)%nat by lia. by rewrite Hend.
  - apply andb_true_iff in Hw as [-> Hw].
    rewrite (IH (S pos) g x Hw Hd); [done| |].
    + by replace (S pos + length w + 1)%nat with (pos + S (length w) + 1)%nat by lia.
    + by replace (S pos + length w)%nat with (pos + S (length w))%nat by lia.
Qed.

Lemma digit_is_dot d : is_digit d = true → dot d = true.
Proof.
  destruct d as [[] [] [] [] [] [] [] []]; vm_compute; congruence.
Qed.

Lemma digit_not_period d : is_digit d = true → other_than "." d = true.
Proof.
  destruct d as [[] [] [] [] [] [] [] []]; vm_compute; congruence.
Qed.

Lemma findall_go_match r c s m :
  match_at r (c :: s) = Some m →
  findall_go r 0 (c :: s) = group1 m :: findall_go r (fst m - 1) s.
Proof. intros H. simpl. by rewrite H. Qed.

Lemma findall_go_skip_all r s : ∀ n,
  (length s ≤ n)%nat → match_at r [] = None → findall_go r n s = [].
Proof.
  induction s as [|c s IH]; intros n Hn Hr; simpl.
  - destruct n; [by rewrite Hr|done].
  - destruct n as [|n]; [simpl in Hn; lia|]. apply IH; [simpl in Hn; lia|done].
Qed.

(** At the end of the text the ghpro pattern gives up the last digit. *)
Lemma ghpro_match_at_end ds d :
  ds ≠ [] → forallb is_digit ds = true → is_digit d = true →
  match_at backport_re_ghpro (chars "Merge pull request #" ++ ds ++ [d])
  = Some ((21 + length ds)%nat, Some ds).
Proof.
  intros Hne Hds Hd. destruct ds as [|d0 ds]; [done|].
  simpl in Hds. apply andb_true_iff in Hds as [Hd0 Hds].
  unfold match_at. simpl.
  rewrite (digit_is_dot _ Hd0), Hd0.
  erewrite rep_greedy_last; [reflexivity|done|done|..].
  - done.
  - simpl. rewrite (digit_not_period _ Hd), take_app_length.
    done.
Qed.


Lemma ghtools_match_digits ds :
  ds ≠ [] → forallb is_digit ds = true →
  match_at backport_re_ghtools (chars "Merge pull request #" ++ ds)
  = Some ((20 + length ds)%nat, Some ds).
Proof.
  intros Hne Hds. destruct ds as [|d0 ds]; [done|].
  simpl in Hds. apply andb_true_iff in Hds as [Hd0 Hds].
  unfold match_at. simpl.
  rewrite (digit_is_dot _ Hd0), Hd0.
  erewrite rep_greedy_all; [reflexivity|done|].
  simpl. by rewrite firstn_all.
Qed.


Lemma no_match_at_nil_ghpro : match_at backport_re_ghpro [] = None.
Proof. reflexivity. Qed.

Lemma no_match_at_nil_ghtools : match_at backport_re_ghtools [] = None.
Proof. reflexivity. Qed.

Lemma findall_ghpro_at_end ds d :
  ds ≠ [] → forallb is_digit ds = true → is_digit d = true →
  findall backport_re_ghpro ("Merge pull request #" +:+ text (ds ++ [d])) = [ds].
Proof.
  intros Hne Hds Hd. unfold findall. rewrite chars_app, chars_text.
  change (chars "Merge pull request #" ++ ds ++ [d])
    with ("M"%char :: chars "erge pull request #" ++ ds ++ [d]).
  erewrite findall_go_match; [|by apply (ghpro_match_at_end ds d)].
  simpl. f_equal. apply findall_go_skip_all; [|done].
  simpl. rewrite !length_app. simpl. lia.
Qed.

Lemma findall_ghtools_at_end ds :
  ds ≠ [] → forallb is_digit ds = true →
  findall backport_re_ghtools ("Merge pull request #" +:+ text ds) = [ds].
Proof.
  intros Hne Hds. unfold findall. rewrite chars_app, chars_text.
  change (chars "Merge pull request #" ++ ds)
    with ("M"%char :: chars "erge pull request #" ++ ds).
  erewrite findall_go_match; [|by apply (ghtools_match_digits ds)].
  simpl. f_equal. apply findall_go_skip_all; [|done].
  simpl. lia.
Qed.


Lemma int_of_digits_snoc ds d n :
  is_digit d = true → int_of_digits ds = Some n →
  int_of_digits (ds ++ [d]) = Some (10 * n + digit_value d).
Proof.
  unfold int_of_digits. intros Hd Hn.
  destruct ds as [|c ds]; [done|].
  destruct (forallb is_digit (c :: ds)) eqn:Hds; [|done].
  injection Hn as <-. change ((c :: ds) ++ [d]) with (c :: (ds ++ [d])).
  cbv zeta. change (c :: ds ++ [d]) with ((c :: ds) ++ [d]).
  rewrite forallb_app, Hds. simpl forallb. rewrite Hd. simpl andb.
  by rewrite fold_left_app.
Qed.

Lemma int_of_digits_one d :
  is_digit d = true → int_of_digits [d] = Some (digit_value d).
Proof. intros Hd. unfold int_of_digits. simpl. by rewrite Hd. Qed.

Lemma int_of_digits_digits ds n :
  int_of_digits ds = Some n → forallb is_digit ds = true.
Proof.
  unfold int_of_digits. destruct ds; [done|].
  by destruct (forallb is_digit _).
Qed.

Lemma findall_ghpro_one_digit d :
  is_digit d = true →
  findall backport_re_ghpro ("Merge pull request #" +:+ text [d]) = [].
Proof.
  destruct d as [[] [] [] [] [] [] [] []]; intros Hd;
    first [discriminate Hd | reflexivity].
Qed.

Lemma numbers_of_one re lines ds n :
  findall re lines = [ds] → int_of_digits ds = Some n →
  numbers_of re lines = Ok {[n]}.
Proof.
  intros Hf Hn. unfold numbers_of. rewrite Hf. simpl. rewrite Hn.
  f_equal. simpl. apply (right_id_L ∅ (∪)).
Qed.

(** C8 (as amended).  On the same log the two variants of
    [already_backported] can differ: on "Merge pull request #155." ghpro
    gives 15 and ghtools 155; on a log that ends with a one-digit number
    ghpro gives nothing and ghtools the number; on a log that ends with a
    number of several digits ghpro gives the number without its last
    digit and ghtools the whole number. *)
Theorem already_backported_variants_differ
    env fs branch since r1 w1 r2 w2 lines :
  run env fs (Ghpro.already_backported branch since) = (r1, w1) →
  log_outputs (trace w1) = [Ok lines] →
  run env fs (Ghtools.already_backported branch since) = (r2, w2) →
  log_outputs (trace w2) = [Ok lines] →
  (lines = "Merge pull request #155." →
     r1 = Ok {[15]} ∧ r2 = Ok {[155]} ∧ r1 ≠ r2)
  ∧ (∀ d, is_digit d = true →
       lines = "Merge pull request #" +:+ text [d] →
       r1 = Ok ∅ ∧ r2 = Ok {[digit_value d]})
  ∧ (∀ ds d n, ds ≠ [] → int_of_digits ds = Some n → is_digit d = true →
       lines = "Merge pull request #" +:+ text (ds ++ [d]) →
       r1 = Ok {[n]} ∧ r2 = Ok {[10 * n + digit_value d]}).
Proof.
  intros Hrun1 Hlog1 Hrun2 Hlog2.
  rewrite (already_backported_run _ _ _ _ _ _ _ _ Hrun1 Hlog1).
  rewrite (already_backported_run _ _ _ _ _ _ _ _ Hrun2 Hlog2).
  split; [|split].
  - intros ->. vm_compute. split; [done|]. split; [done|]. discriminate.
  - intros d Hd ->. split.
    + unfold numbers_of, Ghpro.backport_re. by rewrite findall_ghpro_one_digit.
    + apply (numbers_of_one _ _ [d]); [|by apply int_of_digits_one].
      by apply findall_ghtools_at_end; [|simpl; rewrite Hd].
  - intros ds d n Hne Hn Hd ->.
    pose proof (int_of_digits_digits _ _ Hn) as Hds. split.
    + apply (numbers_of_one _ _ ds); [|done]. by apply findall_ghpro_at_end.
    + apply (numbers_of_one _ _ (ds ++ [d])); [|by apply int_of_digits_snoc].
      apply findall_ghtools_at_end; [by destruct ds|].
      rewrite forallb_app, Hds. simpl. by rewrite Hd.
Qed.

Lemma already_backported_variants_differ_witness :
  fst (run (logged "Merge pull request #155.") ∅ (Ghpro.already_backported "0.13.x" None)) = Ok {[15]}
  ∧ fst (run (logged "Merge pull request #155.") ∅ (Ghtools.already_backported "0.13.x" None)) = Ok {[155]}.
Proof.
  destruct (already_backported_variants_differ (logged "Merge pull request #155.") ∅ "0.13.x" None
              _ _ _ _ "Merge pull request #155." eq_refl eq_refl eq_refl eq_refl)
    as (H & _ & _).
  destruct (H eq_refl) as (H1 & H2 & _). split; [exact H1|exact H2].
Defined.

(** On a log that ends exactly at the digits of #155, ghpro does not
    extract nothing: it extracts 15. *)
Lemma already_backported_truncates_at_end :
  fst (run (logged "Merge pull request #155") ∅ (Ghpro.already_backported "0.13.x" None)) = Ok {[15]}
  ∧ fst (run (logged "Merge pull request #155") ∅ (Ghpro.already_backported "0.13.x" None)) ≠ Ok ∅
  ∧ fst (run (logged "Merge pull request #155") ∅ (Ghtools.already_backported "0.13.x" None)) = Ok {[155]}.
Proof. vm_compute. split; [done|]. split; [discriminate|done]. Qed.

End Variants.

(** ** backport_pr: the cherry-pick strategy and the commit message *)

Module Applier.
Import Text Re Patterns Py Spec Shared ReFacts Samples Exec.

(** C2.  When the status that [backport_pr] (ghpro) reads reports a
    cherry-pick in progress: if it does not contain "cherry-picking
    commit " followed by the first six characters of the merge commit
    hash, the function returns 1 and runs no cherry-pick at all; if it
    does, the only cherry-pick it runs is [cherry-pick --continue]. *)
Theorem backport_pr_resume env fs path branch num project r w pr status :
  run env fs (Ghpro.backport_pr path branch num project) = (r, w) →
  get_pull_request env project num = Ok pr →
  head (status_outputs (trace w)) = Some (Ok status) →
  contains "cherry-picking" status = true →
  (contains ("cherry-picking commit " +:+ slice_to 6 (pr_merge_commit_sha pr))
     status = false →
   r = Ok 1 ∧ cherry_picks (trace w) = [])
  ∧ (contains ("cherry-picking commit " +:+ slice_to 6 (pr_merge_commit_sha pr))
       status = true →
     cherry_picks (trace w) = [["--continue"]]).
Proof.
  intros Hrun Hpr Hst Hin. unfold Ghpro.backport_pr in Hrun.
  unfold_monad. rewrite Hpr in Hrun. simpl in Hrun.
  repeat case_step Hrun.
  all: simplify_eq; cbn in *; simplify_eq.
  all: split; intros Hm; rewrite ?Hm in *; cbn in *; simplify_eq;
    try done; try congruence.
Qed.


(** C3 (as amended).  When the target branch is not the active one,
    [backport_pr] (ghpro) runs checkout(target), for-each-ref, pull if
    the branch tracks an upstream, status, cherry-pick, commit --amend
    and checkout(original) when it returns 0, and the repository is back
    on the original branch; when it returns 1, after a mismatched resume
    (no command failed, the last one is status) or after a failed
    cherry-pick, the repository is left on the target branch. *)
Theorem backport_pr_branch env fs path branch num project r w :
  run env fs (Ghpro.backport_pr path branch num project) = (r, w) →
  branch ≠ active_branch env →
  ∃ pull, (pull = [] ∨ pull = [Pull]) ∧
    let before :=
      [Checkout branch;
       ForEachRef ["--format=%(upstream:short)"; "refs/heads/" +:+ branch]]
      ++ pull in
    (r = Ok 0 →
       (∃ args msg,
          git_cmds (trace w)
          = before ++ [Status; CherryPick args; Commit ["--amend"; "-m"; msg];
                       Checkout (active_branch env)])
       ∧ branch_after (active_branch env) (trace w) = active_branch env)
    ∧ (r = Ok 1 →
       branch_after (active_branch env) (trace w) = branch
       ∧ ((git_failures (trace w) = []
           ∧ git_cmds (trace w) = before ++ [Status])
          ∨ (∃ args, git_failures (trace w) = [CherryPick args]
               ∧ git_cmds (trace w)
                 = before ++ [Status; CherryPick args; Status]))).
Proof.
  intros Hrun Hne. apply String.eqb_neq in Hne.
  unfold Ghpro.backport_pr in Hrun. unfold_monad.
  simpl in Hrun. repeat case_step Hrun.
  all: simplify_eq; rewrite ?Hne in *; cbn in *; simplify_eq.
  all: first
    [ exists [Pull]; split; [by right|]; cbn;
      split; intros ?; simplify_eq;
      (split; [first [by eexists _, _ | done]
              | first [done | by left | by (right; eexists)]])
    | exists []; split; [by left|]; cbn;
      split; intros ?; simplify_eq;
      (split; [first [by eexists _, _ | done]
              | first [done | by left | by (right; eexists)]]) ].
Qed.






Lemma replace_ghpro s :
  replace_char "#" " " (replace_char "@" " " s) = sanitize_ghpro s.
Proof.
  induction s as [|c s IH]; [done|]. unfold sanitize_ghpro in *. simpl.
  rewrite IH. f_equal. destruct (Ascii.eqb c "@") eqn:E1; simpl; [done|].
  done.
Qed.

Lemma replace_ghtools s : replace_char "@" "_" s = sanitize_ghtools s.
Proof.
  induction s as [|c s IH]; [done|]. unfold sanitize_ghtools in *. simpl.
  by rewrite IH.
Qed.

Lemma sanitize_ghpro_clean s :
  has_char "@" (sanitize_ghpro s) = false
  ∧ has_char "#" (sanitize_ghpro s) = false.
Proof.
  induction s as [|c s [IH1 IH2]]; [done|]. unfold sanitize_ghpro in *. simpl.
  rewrite IH1, IH2.
  destruct (Ascii.eqb c "@") eqn:E1; simpl; [done|].
  destruct (Ascii.eqb c "#") eqn:E2; simpl; [done|].
  by rewrite E1, E2.
Qed.

Lemma sanitize_ghtools_clean s :
  has_char "@" (sanitize_ghtools s) = false
  ∧ has_char "#" (sanitize_ghtools s) = has_char "#" s.
Proof.
  induction s as [|c s [IH1 IH2]]; [done|]. unfold sanitize_ghtools in *. simpl.
  rewrite IH1, IH2.
  destruct (Ascii.eqb c "@") eqn:E1; simpl; [|by rewrite E1].
  apply Ascii.eqb_eq in E1 as ->. done.
Qed.

(** C4.  When [backport_pr] returns 0 it has made exactly one commit,
    whose message is "Backport PR #<number>: <title>", an empty line and
    the sanitized body: ghpro (commit --amend) replaces every '@' and
    every '#' of the body by a space, ghtools (commit) replaces every
    '@' by '_' and leaves '#' as it is. *)
Theorem backport_pr_commit_message env fs path branch num project pr :
  get_pull_request env project num = Ok pr →
  (∀ r w, run env fs (Ghpro.backport_pr path branch num project) = (r, w) →
     r = Ok 0 →
     ∃ body, pr_body pr = Some body
       ∧ commits (trace w)
         = [["--amend"; "-m";
             backport_message num (pr_title pr) (sanitize_ghpro body)]]
       ∧ has_char "@" (sanitize_ghpro body) = false
       ∧ has_char "#" (sanitize_ghpro body) = false)
  ∧ (∀ r w, run env fs (Ghtools.backport_pr path branch num project) = (r, w) →
     r = Ok 0 →
     ∃ body, pr_body pr = Some body
       ∧ commits (trace w)
         = [["-m"; backport_message num (pr_title pr) (sanitize_ghtools body)]]
       ∧ has_char "@" (sanitize_ghtools body) = false
       ∧ has_char "#" (sanitize_ghtools body) = has_char "#" body)
  ∧ sanitize_ghpro "cc @alice see #42" = "cc  alice see  42"
  ∧ sanitize_ghtools "cc @alice see #42" = "cc _alice see #42".
Proof.
  intros Hpr. split; [|split; [|done]].
  - intros r w Hrun ->. unfold Ghpro.backport_pr in Hrun. unfold_monad.
    rewrite Hpr in Hrun. simpl in Hrun. repeat case_step Hrun.
    all: simplify_eq; cbn in *; simplify_eq.
    all: eexists; split; [done|]; rewrite replace_ghpro;
      split; [done|apply sanitize_ghpro_clean].
  - intros r w Hrun ->. unfold Ghtools.backport_pr in Hrun. unfold_monad.
    rewrite Hpr in Hrun. simpl in Hrun. repeat case_step Hrun.
    all: simplify_eq; cbn in *; simplify_eq.
    all: eexists; split; [done|]; rewrite replace_ghtools;
      split; [done|apply sanitize_ghtools_clean].
Qed.

(** C9.  When the body of the pull request is null, neither variant of
    [backport_pr] returns an exit code: unless a git command (or, in
    ghtools, the request for the changed files) failed first, the call
    of [replace] on the body raises AttributeError, after the checkout of
    the target branch and the pull have been run. *)
Theorem backport_pr_null_body env fs path branch num project pr :
  get_pull_request env project num = Ok pr →
  pr_body pr = None →
  (∀ r w, run env fs (Ghpro.backport_pr path branch num project) = (r, w) →
     (∃ x, r = Err x)
     ∧ (git_failures (trace w) = [] →
        r = Err (AttributeError "'NoneType' object has no attribute 'replace'")
        ∧ ∃ pull, (pull = [] ∨ pull = [Pull])
           ∧ git_cmds (trace w)
             = (if String.eqb branch (active_branch env) then []
                else [Checkout branch])
               ++ [ForEachRef ["--format=%(upstream:short)";
                               "refs/heads/" +:+ branch]]
               ++ pull))
  ∧ (∀ r w, run env fs (Ghtools.backport_pr path branch num project) = (r, w) →
     (∃ x, r = Err x)
     ∧ (git_failures (trace w) = [] →
        (∃ files, get_pull_request_files env project num = Ok files) →
        r = Err (AttributeError "'NoneType' object has no attribute 'replace'")
        ∧ git_cmds (trace w)
          = (if String.eqb branch (active_branch env) then []
             else [Checkout branch]) ++ [Pull])).
Proof.
  intros Hpr Hbody. split.
  - intros r w Hrun. unfold Ghpro.backport_pr in Hrun. unfold_monad.
    rewrite Hpr in Hrun. simpl in Hrun. rewrite Hbody in Hrun. simpl in Hrun.
    repeat case_step Hrun.
    all: simplify_eq; cbn in *; simplify_eq.
    all: split; [by eexists|]; intros Hf; simplify_eq.
    all: split; [done|].
    all: destruct (String.eqb branch (active_branch env)); cbn in *;
      simplify_eq.
    all: first [ by (exists [Pull]; split; [by right|])
               | by (exists []; split; [by left|]) ].
  - intros r w Hrun. unfold Ghtools.backport_pr in Hrun. unfold_monad.
    rewrite Hpr in Hrun. simpl in Hrun.
    repeat case_step Hrun.
    all: simplify_eq; cbn in *; simplify_eq.
    all: try (rewrite Hbody in *; cbn in *; simplify_eq).
    all: split; [by eexists|]; intros Hf [files Hfiles]; simplify_eq.
    all: destruct (String.eqb branch (active_branch env)); cbn in *;
      simplify_eq.
    all: done.
Qed.

Lemma backport_pr_resume_witness :
  (let e := applying "You are currently cherry-picking commit abcde1."
              (Ok "") (Some "cc @alice see #42") 0 in
   fst (run e ∅ (Ghpro.backport_pr "." "0.13.x" 123 "o/r")) = Ok 1
   ∧ cherry_picks (trace (snd (run e ∅ (Ghpro.backport_pr "." "0.13.x" 123 "o/r"))))
     = [])
  ∧ (let e := applying "You are currently cherry-picking commit abcdef1."
                (Ok "") (Some "cc @alice see #42") 0 in
     cherry_picks (trace (snd (run e ∅ (Ghpro.backport_pr "." "0.13.x" 123 "o/r"))))
     = [["--continue"]]).
Proof.
  split.
  - exact (proj1 (backport_pr_resume
             (applying "You are currently cherry-picking commit abcde1."
                (Ok "") (Some "cc @alice see #42") 0)
             ∅ "." "0.13.x" 123 "o/r" _ _ _ _ eq_refl eq_refl eq_refl eq_refl)
           eq_refl).
  - exact (proj2 (backport_pr_resume
             (applying "You are currently cherry-picking commit abcdef1."
                (Ok "") (Some "cc @alice see #42") 0)
             ∅ "." "0.13.x" 123 "o/r" _ _ _ _ eq_refl eq_refl eq_refl eq_refl)
           eq_refl).
Defined.

Lemma backport_pr_branch_witness :
  let e := applying "On branch 0.13.x" (Ok "") (Some "cc @alice see #42") 0 in
  ∃ msg,
    git_cmds (trace (snd (run e ∅ (Ghpro.backport_pr "." "0.13.x" 123 "o/r"))))
    = [Checkout "0.13.x";
       ForEachRef ["--format=%(upstream:short)"; "refs/heads/0.13.x"];
       Pull; Status; CherryPick ["-m"; "1"; "abcdef1234567890"];
       Commit ["--amend"; "-m"; msg]; Checkout "master"].
Proof.
  intros e.
  destruct (backport_pr_branch e ∅ "." "0.13.x" 123 "o/r" _ _ eq_refl)
    as (pull & Hpull & Hok & _); [discriminate|].
  destruct (Hok eq_refl) as ((args & msg & Hcmds) & _).
  exists msg. rewrite Hcmds in *. clear Hok.
  destruct Hpull as [-> | ->]; simpl in Hcmds; [discriminate Hcmds|].
  injection Hcmds as <- <-. reflexivity.
Defined.

(** On the mismatched resume the function returns 1 right after reading
    the status: the repository stays on the target branch. *)
Lemma backport_pr_mismatch_stays_on_target :
  let e := applying "You are currently cherry-picking commit abcde1."
             (Ok "") (Some "cc @alice see #42") 0 in
  let out := run e ∅ (Ghpro.backport_pr "." "0.13.x" 123 "o/r") in
  fst out = Ok 1
  ∧ git_cmds (trace (snd out))
    = [Checkout "0.13.x";
       ForEachRef ["--format=%(upstream:short)"; "refs/heads/0.13.x"];
       Pull; Status]
  ∧ branch_after (active_branch e) (trace (snd out)) = "0.13.x"
  ∧ branch_after (active_branch e) (trace (snd out)) ≠ active_branch e.
Proof. vm_compute. by repeat split. Qed.

Lemma backport_pr_commit_message_witness :
  let e := applying "On branch 0.13.x" (Ok "") (Some "cc @alice see #42") 0 in
  commits (trace (snd (run e ∅ (Ghpro.backport_pr "." "0.13.x" 123 "o/r"))))
  = [["--amend"; "-m";
      "Backport PR #123: Fix the frobnicator" +:+ nl +:+ nl
      +:+ "cc  alice see  42"]]
  ∧ commits (trace (snd (run e ∅ (Ghtools.backport_pr "." "0.13.x" 123 "o/r"))))
    = [["-m";
        "Backport PR #123: Fix the frobnicator" +:+ nl +:+ nl
        +:+ "cc _alice see #42"]].
Proof.
  intros e.
  destruct (backport_pr_commit_message e ∅ "." "0.13.x" 123 "o/r" _ eq_refl)
    as (Hpro & Htools & _).
  split.
  - destruct (Hpro _ _ eq_refl eq_refl) as (body & Hbody & Hc & _).
    injection Hbody as <-. exact Hc.
  - destruct (Htools _ _ eq_refl eq_refl) as (body & Hbody & Hc & _).
    injection Hbody as <-. exact Hc.
Defined.

Lemma backport_pr_null_body_witness :
  let e := applying "On branch 0.13.x" (Ok "") None 0 in
  fst (run e ∅ (Ghpro.backport_pr "." "0.13.x" 123 "o/r"))
  = Err (AttributeError "'NoneType' object has no attribute 'replace'")
  ∧ fst (run e ∅ (Ghtools.backport_pr "." "0.13.x" 123 "o/r"))
    = Err (AttributeError "'NoneType' object has no attribute 'replace'").
Proof.
  intros e.
  destruct (backport_pr_null_body e ∅ "." "0.13.x" 123 "o/r" _ eq_refl eq_refl)
    as (Hpro & Htools).
  split.
  - exact (proj1 (proj2 (Hpro _ _ eq_refl) eq_refl)).
  - exact (proj1 (proj2 (Htools _ _ eq_refl) eq_refl (ex_intro _ _ eq_refl))).
Defined.

End Applier.

(** ** backport_pr: the patch file of the patch strategy *)

Module PatchFile.
Import Text Re Patterns Py Spec Shared ReFacts Samples Exec.


Lemma backport_pr_check env fs path branch num project r w argv patch rc rest :
  run env fs (Ghtools.backport_pr path branch num project) = (r, w) →
  popens (trace w) = (argv, patch, rc) :: rest →
  argv = ["git"; "apply"; "--check"; "--verbose"]
  ∧ match fs !! patch_file num with
    | Some data =>
        patch = data ∧ http_gets (trace w) = []
        ∧ reads (trace w) = [patch_file num]
    | None =>
        ∃ pr resp, get_pull_request env project num = Ok pr
          ∧ http_gets (trace w) = [pr_patch_url pr]
          ∧ requests_get env (pr_patch_url pr) = Ok resp
          ∧ ¬ (400 ≤ status_code resp < 600)
          ∧ patch = content resp
          ∧ reads (trace w) = []
    end
  ∧ (rc ≠ 0 →
     r = Ok 1 ∧ rest = [] ∧ commits (trace w) = []
     ∧ files w = match fs !! patch_file num with
                 | Some _ => fs
                 | None => <[patch_file num := patch]> fs
                 end
     ∧ writes (trace w) = match fs !! patch_file num with
                          | Some _ => []
                          | None => [(patch_file num, patch)]
                          end
     ∧ printed Stdout (trace w)
       = match fs !! patch_file num with
         | Some _ => ["using patch from " +:+ patch_file num]
         | None => []
         end ++ check_failed_lines num).
Proof.
  unfold check_failed_lines, patch_file. intros Hrun Hp.
  unfold Ghtools.backport_pr in Hrun.
  remember ("PR" +:+ str_of_int num +:+ ".patch") as fname eqn:Hfname.
  clear Hfname.
  destruct (fs !! fname) as [data|] eqn:Hfile.
  - unfold_monad. simpl in Hrun.
    repeat first [rewrite Hfile in Hrun; simpl in Hrun | case_step Hrun].
    all: simplify_eq; cbn in *; simplify_eq.
    all: split; [done|]; split; [done|]; intros Hrc.
    all: try match goal with
             | H : negb (_ =? 0) = false |- _ =>
                 apply negb_false_iff, Z.eqb_eq in H; congruence
             end.
    all: done.
  - unfold_monad. simpl in Hrun.
    repeat first [rewrite Hfile in Hrun; simpl in Hrun | case_step Hrun].
    all: simplify_eq; cbn in *; simplify_eq.
    all: (split; [done|]; split;
          [eexists _, _; split; [done|]; split; [done|]; split; [done|];
           split; [by apply (bool_decide_eq_false_1 _)|done]
          |intros Hrc]).
    all: try match goal with
             | H : negb (_ =? 0) = false |- _ =>
                 apply negb_false_iff, Z.eqb_eq in H; congruence
             end.
    all: done.
Qed.


Lemma backport_pr_no_download env fs path branch num project r w data :
  fs !! patch_file num = Some data →
  run env fs (Ghtools.backport_pr path branch num project) = (r, w) →
  http_gets (trace w) = [].
Proof.
  unfold patch_file. intros Hfile Hrun.
  unfold Ghtools.backport_pr in Hrun.
  remember ("PR" +:+ str_of_int num +:+ ".patch") as fname eqn:Hfname.
  clear Hfname. unfold_monad. simpl in Hrun.
  repeat first [rewrite Hfile in Hrun; simpl in Hrun | case_step Hrun].
  all: by simplify_eq.
Qed.

Lemma backport_pr_download_error env fs path branch num project r w pr resp :
  run env fs (Ghtools.backport_pr path branch num project) = (r, w) →
  fs !! patch_file num = None →
  get_pull_request env project num = Ok pr →
  requests_get env (pr_patch_url pr) = Ok resp →
  400 ≤ status_code resp < 600 →
  http_gets (trace w) ≠ [] →
  r = Err (HTTPError (status_code resp))
  ∧ http_gets (trace w) = [pr_patch_url pr]
  ∧ popens (trace w) = [] ∧ files w = fs.
Proof.
  unfold patch_file. intros Hrun Hfile Hpr Hresp Hcode Hget.
  unfold Ghtools.backport_pr in Hrun.
  remember ("PR" +:+ str_of_int num +:+ ".patch") as fname eqn:Hfname.
  clear Hfname. unfold_monad. rewrite Hpr in Hrun. simpl in Hrun.
  repeat first [rewrite Hfile in Hrun; simpl in Hrun
               | rewrite Hresp in Hrun; simpl in Hrun
               | rewrite (bool_decide_eq_true_2 _ Hcode) in Hrun; simpl in Hrun
               | case_step Hrun].
  all: by simplify_eq.
Qed.

(** C6.  [backport_pr] (ghtools) checks the content of PR<number>.patch
    when that file exists, without any download; otherwise it checks the
    content downloaded from the patch URL of the pull request, and a
    response with a status from 400 to 599 raises HTTPError before any
    check.  When the check fails the function returns 1, prints the
    instructions, writes the patch to PR<number>.patch only if the file
    did not exist, and every later run of the same call reads the patch
    from that file. *)
Theorem backport_pr_patch_file env fs path branch num project r w :
  run env fs (Ghtools.backport_pr path branch num project) = (r, w) →
  (∀ argv patch rc rest,
     popens (trace w) = (argv, patch, rc) :: rest →
     argv = ["git"; "apply"; "--check"; "--verbose"]
     ∧ match fs !! patch_file num with
       | Some data =>
           patch = data ∧ http_gets (trace w) = []
           ∧ reads (trace w) = [patch_file num]
       | None =>
           ∃ pr resp, get_pull_request env project num = Ok pr
             ∧ http_gets (trace w) = [pr_patch_url pr]
             ∧ requests_get env (pr_patch_url pr) = Ok resp
             ∧ ¬ (400 ≤ status_code resp < 600)
             ∧ patch = content resp
             ∧ reads (trace w) = []
       end
     ∧ (rc ≠ 0 →
        r = Ok 1 ∧ rest = [] ∧ commits (trace w) = []
        ∧ files w = match fs !! patch_file num with
                    | Some _ => fs
                    | None => <[patch_file num := patch]> fs
                    end
        ∧ writes (trace w) = match fs !! patch_file num with
                             | Some _ => []
                             | None => [(patch_file num, patch)]
                             end
        ∧ printed Stdout (trace w)
          = match fs !! patch_file num with
            | Some _ => ["using patch from " +:+ patch_file num]
            | None => []
            end ++ check_failed_lines num
        ∧ ∀ env' r' w',
            run env' (files w) (Ghtools.backport_pr path branch num project)
            = (r', w') →
            http_gets (trace w') = []
            ∧ ∀ argv' patch' rc' rest',
                popens (trace w') = (argv', patch', rc') :: rest' →
                patch' = patch))
  ∧ (∀ pr resp,
       fs !! patch_file num = None →
       get_pull_request env project num = Ok pr →
       requests_get env (pr_patch_url pr) = Ok resp →
       400 ≤ status_code resp < 600 →
       http_gets (trace w) ≠ [] →
       r = Err (HTTPError (status_code resp)) ∧ popens (trace w) = []
       ∧ files w = fs).
Proof.
  intros Hrun. split.
  - intros argv patch rc rest Hp.
    destruct (backport_pr_check _ _ _ _ _ _ _ _ _ _ _ _ Hrun Hp)
      as (Hargv & Hsrc & Hfail).
    split; [done|]. split; [done|]. intros Hrc.
    destruct (Hfail Hrc) as (Hr & Hrest & Hc & Hfiles & Hw & Hpr).
    do 6 (split; [done|]).
    assert (Hsaved : files w !! patch_file num = Some patch).
    { rewrite Hfiles. destruct (fs !! patch_file num) as [data|] eqn:Hfile.
      - destruct Hsrc as (-> & _). done.
      - apply lookup_insert_eq. }
    intros env' r' w' Hrun'. split.
    + by eapply backport_pr_no_download.
    + intros argv' patch' rc' rest' Hp'.
      destruct (backport_pr_check _ _ _ _ _ _ _ _ _ _ _ _ Hrun' Hp')
        as (_ & Hsrc' & _).
      rewrite Hsaved in Hsrc'. by destruct Hsrc' as (-> & _).
  - intros pr resp Hfile Hpr Hresp Hcode Hget.
    destruct (backport_pr_download_error _ _ _ _ _ _ _ _ _ _
                Hrun Hfile Hpr Hresp Hcode Hget) as (? & ? & ? & ?).
    done.
Qed.

Lemma backport_pr_patch_file_witness :
  let e := applying "" (Ok "") (Some "cc @alice see #42") 1 in
  let out := run e ∅ (Ghtools.backport_pr "." "0.13.x" 123 "o/r") in
  fst out = Ok 1
  ∧ files (snd out) = {["PR123.patch" := "diff --git"]}
  ∧ ∀ e' r' w',
      run e' (files (snd out)) (Ghtools.backport_pr "." "0.13.x" 123 "o/r")
      = (r', w') →
      http_gets (trace w') = [].
Proof.
  intros e out.
  destruct (backport_pr_patch_file e ∅ "." "0.13.x" 123 "o/r" _ _
              (surjective_pairing out)) as (H & _).
  assert (Hp : popens (trace (snd out))
               = [(["git"; "apply"; "--check"; "--verbose"], "diff --git", 1)])
    by (by vm_compute).
  destruct (H _ _ _ _ Hp) as (_ & _ & Hfail).
  destruct Hfail as (Hr & _ & _ & Hfiles & _ & _ & Hagain); [discriminate|].
  split; [exact Hr|]. split; [rewrite Hfiles; by vm_compute|].
  intros e' r' w' Hrun. exact (proj1 (Hagain e' r' w' Hrun)).
Defined.

End PatchFile.

(** ** tobackport *)

Module Reconciler.
Import Text Re Patterns Py Spec Shared ReFacts Samples Exec.


Lemma print_all_nil w : print_all [] w = w.
Proof. destruct w. unfold print_all. simpl. by rewrite app_nil_r. Qed.

Lemma print_all_app l1 l2 w : print_all l2 (print_all l1 w) = print_all (l1 ++ l2) w.
Proof. unfold print_all. simpl. by rewrite fmap_app, app_assoc. Qed.

Lemma print_run {R} line (e : env) w :
  @print R line e w = (Normal tt, print_all [line] w).
Proof. done. Qed.

Lemma for_each_print {R} (l : list Z) (e : env) : ∀ w,
  @for_each_ R Z l (λ pr, print (str_of_int pr)) e w
  = (Normal tt, print_all (str_of_int <$> l) w).
Proof.
  unfold for_each_. induction l as [|n l IH]; intros w; simpl.
  - by rewrite print_all_nil.
  - unfold mbind, M_bind. rewrite print_run, IH, print_all_app. done.
Qed.

Lemma printed_app to l1 l2 : printed to (l1 ++ l2) = printed to l1 ++ printed to l2.
Proof. unfold printed. apply omap_app. Qed.

Lemma printed_stdout lines : printed Stdout (EPrint Stdout <$> lines) = lines.
Proof. induction lines as [|l lines IH]; [done|]. simpl. f_equal. exact IH. Qed.

Lemma printed_print_all lines w :
  printed Stdout (trace (print_all lines w)) = printed Stdout (trace w) ++ lines.
Proof. unfold print_all. simpl. by rewrite printed_app, printed_stdout. Qed.

(** The loop of [tobackport] over [sorted(shouldnt)]. *)
Lemma classify_loop (e : env) project milestone l :
  ∀ (ok0 : gset Z) (st0 : list Z) w o w',
  for_each (R := unit) l (ok0, st0)
    (λ (num : Z) '(ok, still_shouldnt),
       pr ← ask (λ e, get_pull_request e project num) ≫= lift;
       if match pr_milestone pr with
          | Some m => version_lt e (milestone_title m) milestone
          | None => false
          end
       then mret ({[num]} ∪ ok, still_shouldnt)
       else mret (ok, still_shouldnt ++ [num])) e w = (o, w') →
  w' = w
  ∧ match o with
    | Normal (ok, st) =>
        (∀ n, n ∈ ok ↔ n ∈ ok0 ∨ (n ∈ l ∧ accepted e project milestone n = true))
        ∧ st = st0 ++ filter (λ n, accepted e project milestone n = false) l
        ∧ ∀ n, n ∈ l → ∃ pr, get_pull_request e project n = Ok pr
    | Raised _ => True
    | Returned _ => False
    end.
Proof.
  induction l as [|n l IH]; intros ok0 st0 w o w' H; simpl in H.
  - unfold mret, M_ret in H. simplify_eq. split; [done|].
    split; [set_solver|]. split; [by rewrite app_nil_r|]. set_solver.
  - unfold mbind, M_bind, ask, lift, mret, M_ret, raise in H. simpl in H.
    destruct (get_pull_request e project n) as [pr|x] eqn:Hpr; simpl in H;
      [|by simplify_eq].
    assert (Hacc : accepted e project milestone n
                   = match pr_milestone pr with
                     | Some m => version_lt e (milestone_title m) milestone
                     | None => false
                     end) by (unfold accepted; by rewrite Hpr).
    destruct (match pr_milestone pr with
              | Some m => version_lt e (milestone_title m) milestone
              | None => false
              end) eqn:Hm.
    + apply IH in H as [-> H]. split; [done|].
      destruct o as [[ok st]| |]; [|done|done].
      destruct H as (Hok & -> & Hall). split; [|split].
      * intros k. rewrite Hok. rewrite elem_of_union, elem_of_singleton, elem_of_cons.
        split; [intros [[->|?]|[? ?]]; eauto|intros [?|[[->|?] ?]]; eauto].
      * rewrite filter_cons. destruct (decide _) as [Hd|Hd]; [congruence|done].
      * intros k [->|Hk]%elem_of_cons; eauto.
    + apply IH in H as [-> H]. split; [done|].
      destruct o as [[ok st]| |]; [|done|done].
      destruct H as (Hok & -> & Hall). split; [|split].
      * intros k. rewrite Hok, elem_of_cons.
        split; [intros [?|[? ?]]; eauto|intros [?|[[->|?] ?]]; eauto].
        congruence.
      * rewrite filter_cons. destruct (decide _) as [Hd|Hd]; [|congruence].
        by rewrite <- app_assoc.
      * intros k [->|Hk]%elem_of_cons; eauto.
Qed.


Lemma print_section {R} (b : bool) header (l : list Z) (e : env) w :
  @when R b (print header;; for_each_ l (λ pr, print (str_of_int pr))) e w
  = (Normal tt, print_all (if b then header :: (str_of_int <$> l) else []) w).
Proof.
  destruct b; simpl; [|by rewrite print_all_nil].
  unfold mbind, M_bind. rewrite print_run, for_each_print, print_all_app. done.
Qed.

Lemma elem_of_sorted (X : gset Z) n : n ∈ sorted X ↔ n ∈ X.
Proof. unfold sorted. by rewrite merge_sort_Permutation, elem_of_elements. Qed.

Lemma sorted_empty : sorted ∅ = [].
Proof. unfold sorted. by rewrite elements_empty. Qed.

Lemma nonempty_set_decide (X : gset Z) :
  nonempty_set X = if decide (X = ∅) then false else true.
Proof.
  unfold nonempty_set. destruct (decide (X = ∅)) as [->|Hne].
  - by apply bool_decide_eq_false_2; intros [].
  - by apply bool_decide_eq_true_2.
Qed.

(** What [tobackport] does once [already] and [should] are known. *)
Lemma report_run (e : env) project milestone (already should : gset Z) w0 o w :
  tobackport_report project milestone already should e w0 = (o, w) →
  match o with
  | Normal _ =>
      ∃ (ok : gset Z) (still : list Z),
        w = print_all (report_lines still ok (should ∖ already)) w0
        ∧ (∀ n, n ∈ ok ↔ n ∈ already ∩ should
                 ∨ (n ∈ already ∖ should
                    ∧ accepted e project milestone n = true))
        ∧ still = filter (λ n, accepted e project milestone n = false)
                    (sorted (already ∖ should))
        ∧ ∀ n, n ∈ already ∖ should → ∃ pr, get_pull_request e project n = Ok pr
  | Raised _ => w = w0
  | Returned _ => False
  end.
Proof.
  unfold tobackport_report. intros H.
  cbv zeta in H. unfold mbind at 1, M_bind at 1 in H.
  destruct (nonempty_set (already ∖ should)) eqn:Hs.
  - unfold mbind at 1, M_bind at 1, ask at 1 in H.
    unfold mbind at 1, M_bind at 1 in H.
    destruct (for_each _ _ _ e w0) as [o1 w1] eqn:Hloop.
    apply classify_loop in Hloop as [-> Hloop].
    destruct o1 as [[ok st]|x|[]]; [|by simplify_eq|done].
    destruct Hloop as (Hok & Hst & Hall). simpl in Hst.
    unfold mbind at 1, M_bind at 1 in H.
    rewrite print_section in H. unfold mret at 1, M_ret at 1 in H.
    unfold mbind at 1, M_bind at 1 in H.
    rewrite print_section in H.
    destruct (nonempty_set (should ∖ already)) eqn:Ht.
    + unfold mbind, M_bind in H. rewrite print_run, for_each_print in H.
      simplify_eq. exists ok, (filter (λ n, accepted e project milestone n = false)
                   (sorted (already ∖ should))).
      split; [|split; [|split; [done|]]].
      * rewrite !print_all_app. f_equal. unfold report_lines.
        rewrite nonempty_set_decide in Ht. rewrite nonempty_set_decide.
        destruct (decide (should ∖ already = ∅)); [done|].
        f_equal; [by destruct (filter _ (sorted _))|].
        destruct (decide (ok = ∅)); simpl; [done|]. done.
      * intros n. rewrite Hok, elem_of_sorted. done.
      * intros n Hn. apply Hall. by apply elem_of_sorted.
    + rewrite print_run in H.
      simplify_eq. exists ok, (filter (λ n, accepted e project milestone n = false)
                   (sorted (already ∖ should))).
      split; [|split; [|split; [done|]]].
      * rewrite !print_all_app. f_equal. unfold report_lines.
        rewrite nonempty_set_decide in Ht. rewrite nonempty_set_decide.
        destruct (decide (should ∖ already = ∅)); [|done].
        f_equal; [by destruct (filter _ (sorted _))|].
        destruct (decide (ok = ∅)); simpl; done.
      * intros n. rewrite Hok, elem_of_sorted. done.
      * intros n Hn. apply Hall. by apply elem_of_sorted.
  - rewrite nonempty_set_decide in Hs.
    destruct (decide (already ∖ should = ∅)) as [He|]; [|done].
    unfold mret at 1, M_ret at 1 in H.
    unfold mbind at 1, M_bind at 1 in H.
    rewrite print_section in H.
    destruct (nonempty_set (should ∖ already)) eqn:Ht.
    + unfold mbind, M_bind in H. rewrite print_run, for_each_print in H.
      simplify_eq. exists (already ∩ should), [].
      split; [|split; [|split]].
      * rewrite !print_all_app. f_equal. unfold report_lines.
        rewrite nonempty_set_decide in Ht. rewrite nonempty_set_decide.
        destruct (decide (should ∖ already = ∅)); [done|].
        simpl. destruct (decide (already ∩ should = ∅)); simpl; done.
      * intros n. rewrite He. set_solver.
      * by rewrite He, sorted_empty.
      * intros n. rewrite He. set_solver.
    + rewrite print_run in H.
      simplify_eq. exists (already ∩ should), [].
      split; [|split; [|split]].
      * rewrite !print_all_app. f_equal. unfold report_lines.
        rewrite nonempty_set_decide in Ht. rewrite nonempty_set_decide.
        destruct (decide (should ∖ already = ∅)); [|done].
        simpl. destruct (decide (already ∩ should = ∅)); simpl; done.
      * intros n. rewrite He. set_solver.
      * by rewrite He, sorted_empty.
      * intros n. rewrite He. set_solver.
Qed.


Lemma accepted_true (e : env) project milestone n :
  accepted e project milestone n = true →
  ∃ pr m, get_pull_request e project n = Ok pr ∧ pr_milestone pr = Some m
          ∧ version_lt e (milestone_title m) milestone = true.
Proof.
  unfold accepted. destruct (get_pull_request e project n) as [pr|]; [|done].
  destruct (pr_milestone pr) as [m|] eqn:Hm; [|done]. intros Hlt.
  by exists pr, m.
Qed.

Lemma accepted_no_milestone (e : env) project milestone n pr :
  get_pull_request e project n = Ok pr → pr_milestone pr = None →
  accepted e project milestone n = false.
Proof. unfold accepted. by intros -> ->. Qed.

Lemma call_not_returned {R R'} (body : M R R) (e : env) w (v : R') w' :
  call body e w ≠ (Returned v, w').
Proof. unfold call. by destruct (body e w) as [[] ?]. Qed.

(** Splitting a run of [tobackport] into its three phases. *)
Lemma tobackport_phases re (e : env) fs project branch milestone since w :
  run e fs (tobackport_with re project branch milestone since) = (Ok (), w) →
  ∃ already should w1 w2,
    call (R' := unit) (already_backported_with re branch since) e
      {| trace := []; files := fs |} = (Normal already, w1)
    ∧ call (R' := unit) (should_backport project milestone) e w1
      = (Normal should, w2)
    ∧ tobackport_report project milestone already should e w2 = (Normal (), w).
Proof.
  unfold run, tobackport_with. unfold mbind at 1, M_bind at 1. intros H.
  destruct (call (already_backported_with re branch since) e _)
    as [[already|x|v] w1] eqn:H1;
    [|by simplify_eq|by apply call_not_returned in H1].
  unfold mbind at 1, M_bind at 1 in H.
  destruct (call (should_backport project milestone) e w1)
    as [[should|x|v] w2] eqn:H2;
    [|by simplify_eq|by apply call_not_returned in H2].
  exists already, should, w1, w2. split; [done|]. split; [done|].
  destruct (tobackport_report _ _ _ _ e w2) as [[[]|x|[]] w'] eqn:H3;
    [by simplify_eq|by simplify_eq|].
  by apply report_run in H3.
Qed.

(** C1.  Whenever [tobackport] (either variant) completes, what it
    prints after the two sets [already] and [should] are computed is the
    report of three groups: todo is [should] minus [already]; ok contains
    [already] intersected with [should]; every other member of ok comes
    from [already] minus [should] and has a milestone whose version is
    less than the target one; a member of [already] minus [should] whose
    pull request has no milestone is not in ok and is in the
    still-shouldn't list. *)
Theorem tobackport_groups re (e : env) fs project branch milestone since w :
  run e fs (tobackport_with re project branch milestone since) = (Ok (), w) →
  ∃ (already should : gset Z) w1 w2 (ok : gset Z) (still : list Z),
    call (R' := unit) (already_backported_with re branch since) e
      {| trace := []; files := fs |} = (Normal already, w1)
    ∧ call (R' := unit) (should_backport project milestone) e w1
      = (Normal should, w2)
    ∧ printed Stdout (trace w)
      = printed Stdout (trace w2) ++ report_lines still ok (should ∖ already)
    ∧ already ∩ should ⊆ ok
    ∧ (∀ n, n ∈ ok → n ∉ already ∩ should →
         n ∈ already ∖ should
         ∧ ∃ pr m, get_pull_request e project n = Ok pr
             ∧ pr_milestone pr = Some m
             ∧ version_lt e (milestone_title m) milestone = true)
    ∧ (∀ n pr, n ∈ already ∖ should →
         get_pull_request e project n = Ok pr → pr_milestone pr = None →
         (n ∉ ok) ∧ n ∈ still)
    ∧ (∀ n, n ∈ still → n ∈ already ∖ should ∧ n ∉ ok).
Proof.
  intros Hrun.
  destruct (tobackport_phases _ _ _ _ _ _ _ _ Hrun)
    as (already & should & w1 & w2 & H1 & H2 & H3).
  apply report_run in H3 as (ok & still & -> & Hok & Hst & Hall).
  exists already, should, w1, w2, ok, still.
  split; [done|]. split; [done|]. split; [apply printed_print_all|].
  split; [|split; [|split]].
  - intros n Hn. apply Hok. by left.
  - intros n Hn Hnot. apply Hok in Hn as [?|[Hs Hacc]]; [done|].
    split; [done|]. by apply accepted_true.
  - intros n pr Hn Hpr Hm.
    pose proof (accepted_no_milestone e project milestone n pr Hpr Hm) as Hacc.
    split.
    + intros Hin. apply Hok in Hin as [?|[_ Hacc']]; [set_solver|congruence].
    + rewrite Hst. apply list_elem_of_filter. split; [done|].
      by apply elem_of_sorted.
  - intros n Hn. rewrite Hst in Hn.
    apply list_elem_of_filter in Hn as [Hacc Hn]. apply elem_of_sorted in Hn.
    split; [done|]. intros Hin.
    apply Hok in Hin as [?|[_ Hacc']]; [set_solver|congruence].
Qed.

Lemma report_same (e : env) project milestone (X : gset Z) w0 :
  tobackport_report project milestone X X e w0
  = (Normal (), print_all (report_lines [] X ∅) w0).
Proof.
  unfold tobackport_report. cbv zeta.
  rewrite (difference_diag_L X), (intersection_idemp_L X).
  unfold mbind at 1, M_bind at 1.
  replace (nonempty_set ∅) with false
    by (symmetry; by apply bool_decide_eq_false_2; intros []).
  unfold mret at 1, M_ret at 1. unfold mbind at 1, M_bind at 1.
  rewrite print_section, print_run, print_all_app. f_equal. f_equal.
  unfold report_lines. rewrite nonempty_set_decide. simpl.
  by destruct (decide (X = ∅)).
Qed.

Lemma str_of_int_not_header n :
  str_of_int n ≠ "The following PRs should be backported:".
Proof.
  unfold str_of_int, NilZero.string_of_int.
  destruct (Z.to_int n) as [d|d]; [|done]. by destruct d.
Qed.

(** C7.  When [already_backported] and [should_backport] return the same
    set, [tobackport] completes and prints the backported pull requests
    (if any) and then "Everything appears up-to-date"; the section "The
    following PRs should be backported:" is not printed. *)
Theorem tobackport_up_to_date
    re (e : env) fs project branch milestone since (X : gset Z) w1 w2 :
  call (R' := unit) (already_backported_with re branch since) e
    {| trace := []; files := fs |} = (Normal X, w1) →
  call (R' := unit) (should_backport project milestone) e w1
    = (Normal X, w2) →
  ∃ w, run e fs (tobackport_with re project branch milestone since)
       = (Ok (), w)
    ∧ printed Stdout (trace w)
      = printed Stdout (trace w2)
        ++ (if decide (X = ∅) then []
            else "The following PRs have been backported"
                 :: (str_of_int <$> sorted X))
        ++ ["Everything appears up-to-date"]
    ∧ "The following PRs should be backported:"
      ∉ (if decide (X = ∅) then []
         else "The following PRs have been backported"
              :: (str_of_int <$> sorted X))
        ++ ["Everything appears up-to-date"].
Proof.
  intros H1 H2. exists (print_all (report_lines [] X ∅) w2). split; [|split].
  - unfold run, tobackport_with. unfold mbind at 1, M_bind at 1.
    rewrite H1. unfold mbind at 1, M_bind at 1. rewrite H2.
    by rewrite report_same.
  - by rewrite printed_print_all.
  - intros Hin. apply elem_of_app in Hin as [Hin|Hin].
    + destruct (decide (X = ∅)); [by apply elem_of_nil in Hin|].
      apply elem_of_cons in Hin as [?|Hin]; [done|].
      apply list_elem_of_fmap in Hin as (k & Hk & _).
      symmetry in Hk. by apply str_of_int_not_header in Hk.
    + by apply list_elem_of_singleton in Hin.
Qed.

Lemma tobackport_groups_witness :
  let out := run (reconciling log_behind) ∅
               (Ghpro.tobackport "o/r" "0.13.x" "0.13.1" None) in
  fst out = Ok ()
  ∧ printed Stdout (trace (snd out))
    = ["The following PRs have been backported, but perhaps shouldn't be:";
       "77";
       "The following PRs have been backported"; "9"; "55";
       "The following PRs should be backported:"; "123"]
  ∧ ∃ (already should ok : gset Z) (still : list Z) w2,
      printed Stdout (trace (snd out))
      = printed Stdout (trace w2) ++ report_lines still ok (should ∖ already)
      ∧ already ∩ should ⊆ ok.
Proof.
  intros out. split; [by vm_compute|]. split; [by vm_compute|].
  assert (Hrun : run (reconciling log_behind) ∅
                   (Ghpro.tobackport "o/r" "0.13.x" "0.13.1" None)
                 = (Ok (), snd out)) by (by vm_compute).
  destruct (tobackport_groups _ _ _ _ _ _ _ _ Hrun)
    as (already & should & w1 & w2 & ok & still & _ & _ & Hp & Hsub & _).
  by exists already, should, ok, still, w2.
Defined.

Lemma tobackport_up_to_date_witness :
  ∃ w, run (reconciling log_level) ∅
         (Ghtools.tobackport "o/r" "0.13.x" "0.13.1" None) = (Ok (), w)
    ∧ printed Stdout (trace w)
      = ["The following PRs have been backported"; "55"; "123";
         "Everything appears up-to-date"].
Proof.
  assert (H1 : call (R' := unit)
                 (already_backported_with Ghtools.backport_re "0.13.x" None)
                 (reconciling log_level) {| trace := []; files := ∅ |}
               = (Normal {[55; 123]},
                  snd (call (R' := unit)
                         (already_backported_with Ghtools.backport_re
                            "0.13.x" None)
                         (reconciling log_level)
                         {| trace := []; files := ∅ |})))
    by (by vm_compute).
  assert (H2 : call (R' := unit) (should_backport "o/r" "0.13.1")
                 (reconciling log_level)
                 (snd (call (R' := unit)
                         (already_backported_with Ghtools.backport_re
                            "0.13.x" None)
                         (reconciling log_level)
                         {| trace := []; files := ∅ |}))
               = (Normal {[55; 123]},
                  snd (call (R' := unit) (should_backport "o/r" "0.13.1")
                         (reconciling log_level)
                         (snd (call (R' := unit)
                                 (already_backported_with Ghtools.backport_re
                                    "0.13.x" None)
                                 (reconciling log_level)
                                 {| trace := []; files := ∅ |})))))
    by (by vm_compute).
  destruct (tobackport_up_to_date _ _ _ "o/r" _ _ _ _ _ _ H1 H2)
    as (w & Hrun & Hp & _).
  exists w. split; [exact Hrun|]. rewrite Hp. by vm_compute.
Defined.

End Reconciler.

(** ** guess_project *)

Module Resolver.
Import Text Re Patterns Py Spec Shared ReFacts Samples Exec.

Lemma project_pat_sound url m :
  match_at _project_pat url = Some m → project_url url (group1 m).
Proof.
  unfold match_at. intros H.
  apply matchK_sound in H as (pos' & s' & g' & H & Hk). injection Hk as <-.
  destruct H as (p1 & s1 & g1 & (pre & -> & Hpre & -> & ->)
                 & p2 & s2 & g2 & Hgh
                 & p3 & s3 & g3 & (c & -> & Hc & -> & ->)
                 & p4 & s4 & g4 & Hcom
                 & p5 & s5 & g5 & (sep & -> & Hsep & -> & ->)
                 & p6 & s6 & g6 & (g0 & (proj & -> & Hproj & -> & ->) & ->)
                 & Hgit).
  apply lit_nocase_matches in Hgh as (gh & -> & Hgh & -> & ->).
  apply lit_nocase_matches in Hcom as (com & -> & Hcom & -> & ->).
  apply lit_nocase_matches in Hgit as (git & -> & Hgit & -> & ->).
  apply either_true in Hsep.
  exists pre, gh, c, com, sep, git, s'. unfold group1. simpl.
  rewrite Nat.add_comm, Nat.add_sub, take_app_length.
  split; [done|]. done.
Qed.

Lemma project_pat_complete url project :
  project_url url project → is_Some (match_at _project_pat url).
Proof.
  intros (pre & gh & c & com & sep & git & rest & -> & Hpre & Hgh & Hc & Hcom
          & Hsep & Hproj & Hgit).
  unfold match_at.
  eapply (matchK_complete _project_pat 0 _ None
            (length pre + length gh + 1 + length com + 1 + length project
             + length git) rest
            (Some project)); [|done].
  unfold _project_pat. cbn -[lit_nocase].
  exists (0 + length pre)%nat, (gh ++ [c] ++ com ++ [sep] ++ project ++ git ++ rest), None.
  split; [by exists pre|].
  eexists _, _, None. split; [by apply lit_nocase_intro|].
  eexists _, _, None. split; [by exists c|].
  eexists _, _, None. split; [by apply lit_nocase_intro|].
  eexists _, _, None. split.
  { exists sep. split; [done|]. split; [|done].
    unfold either. by destruct Hsep as [-> | ->]. }
  eexists _, _, _. split.
  { exists None. split; [by exists project|]. reflexivity. }
  match goal with
  | |- context [take ?n _] => replace n with (length project) by lia
  end.
  rewrite take_app_length.
  match goal with
  | |- matches _ ?p _ _ ?q _ _ => replace q with (p + length git)%nat by lia
  end.
  by apply lit_nocase_intro.
Qed.


Lemma chosen_remote_none (all : list remote) :
  chosen_remote all = None
  ↔ ∀ rem, rem ∈ all →
      remote_name rem ≠ "upstream" ∧ remote_name rem ≠ "origin".
Proof.
  unfold chosen_remote.
  destruct (filter (λ r, remote_name r = "upstream") all) as [|u us] eqn:Hu.
  - destruct (filter (λ r, remote_name r = "origin") all) as [|o os] eqn:Ho;
      simpl.
    + split; [|done]. intros _ rem Hrem. split; intros Hn.
      * assert (rem ∈ filter (λ r, remote_name r = "upstream") all)
          by (by apply list_elem_of_filter).
        rewrite Hu in *. by apply elem_of_nil in H.
      * assert (rem ∈ filter (λ r, remote_name r = "origin") all)
          by (by apply list_elem_of_filter).
        rewrite Ho in *. by apply elem_of_nil in H.
    + split; [done|]. intros Hall.
      assert (Hin : o ∈ filter (λ r, remote_name r = "origin") all)
        by (rewrite Ho; by left).
      apply list_elem_of_filter in Hin as [Hname Hin].
      by destruct (Hall o Hin).
  - split; [done|]. intros Hall.
    assert (Hin : u ∈ filter (λ r, remote_name r = "upstream") all)
      by (rewrite Hu; by left).
    apply list_elem_of_filter in Hin as [Hname Hin].
    by destruct (Hall u Hin).
Qed.

Lemma lower_period c : lower c = "."%char → c = "."%char.
Proof.
  destruct c as [[] [] [] [] [] [] [] []]; intros H; vm_compute in H;
    first [done | discriminate H].
Qed.

Lemma project_url_names url project :
  project_url url project → names_project url project.
Proof.
  intros (pre & gh & c & com & sep & git & rest & -> & _ & Hgh & _ & Hcom
          & Hsep & Hproj & Hgit).
  by exists pre, gh, [c], com, sep, git, rest.
Qed.

Lemma github_url_project_url url project :
  github_url url project → project_url url project.
Proof.
  intros (pre & host & sep & git & rest & -> & Hpre & Hhost & Hsep & Hproj
          & Hgit).
  do 10 (destruct host as [|? host]; [done|]). destruct host; [|done].
  unfold lower_all in Hhost. simpl in Hhost. simplify_eq.
  match goal with
  | H : lower ?c = "."%char |- _ => apply lower_period in H as ->
  end.
  eexists pre, [_; _; _; _; _; _], "."%char, [_; _; _], sep, git, rest.
  split; [done|]. split; [done|]. split.
  { unfold lower_all. simpl. by repeat f_equal. }
  split; [done|]. split; [|done].
  unfold lower_all. simpl. by repeat f_equal.
Qed.

(** C10 (as amended).  [guess_project] reads the first remote named
    upstream or else the first one named origin: without such a remote it
    raises IndexError.  When it returns a project, the URL of that remote
    contains github, later com followed by a colon or a slash, the
    project (on one line) and .git, in any letter case: the URL need not
    end there.  It does return a project for every URL that has, on its
    first line, github.com, a colon or a slash, a project and .git.
    When the URL does not match the pattern it raises AttributeError, and
    it never fails in another way. *)
Theorem guess_project_partial (e : env) fs path r w :
  run e fs (Utils.guess_project path) = (r, w) →
  trace w = [] ∧ files w = fs
  ∧ match chosen_remote (remotes e) with
    | None => r = Err (IndexError "list index out of range")
    | Some rem =>
        (∀ p, r = Ok p → names_project (chars (remote_url rem)) (chars p))
        ∧ ((∃ p, github_url (chars (remote_url rem)) p) → ∃ p, r = Ok p)
        ∧ (match_at _project_pat (chars (remote_url rem)) = None →
           r = Err (AttributeError
                      "'NoneType' object has no attribute 'group'"))
        ∧ ((∃ p, r = Ok p)
           ∨ r = Err (AttributeError
                        "'NoneType' object has no attribute 'group'"))
    end
  ∧ (chosen_remote (remotes e) = None
     ↔ ∀ rem, rem ∈ remotes e →
         remote_name rem ≠ "upstream" ∧ remote_name rem ≠ "origin").
Proof.
  intros Hrun.
  cut (trace w = [] ∧ files w = fs
       ∧ match chosen_remote (remotes e) with
         | None => r = Err (IndexError "list index out of range")
         | Some rem =>
             (∀ p, r = Ok p → names_project (chars (remote_url rem)) (chars p))
             ∧ ((∃ p, github_url (chars (remote_url rem)) p) → ∃ p, r = Ok p)
             ∧ (match_at _project_pat (chars (remote_url rem)) = None →
                r = Err (AttributeError
                           "'NoneType' object has no attribute 'group'"))
             ∧ ((∃ p, r = Ok p)
                ∨ r = Err (AttributeError
                             "'NoneType' object has no attribute 'group'"))
         end).
  { intros (? & ? & ?). pose proof (chosen_remote_none (remotes e)). done. }
  unfold Utils.guess_project, Utils.first_of in Hrun.
  unfold_monad. simpl in Hrun.
  assert (Hchosen :
    match (if nonempty_list (filter (λ r, remote_name r = "upstream") (remotes e))
           then filter (λ r, remote_name r = "upstream") (remotes e)
           else filter (λ r, remote_name r = "origin") (remotes e)) with
    | x :: _ => Some x
    | [] => None
    end = chosen_remote (remotes e)).
  { unfold chosen_remote.
    destruct (filter (λ r, remote_name r = "upstream") (remotes e)); [|done].
    simpl. by destruct (filter _ (remotes e)). }
  destruct (if nonempty_list _ then _ else _) as [|rem rest] eqn:Hl;
    rewrite <- Hchosen; simpl in Hrun.
  - by simplify_eq.
  - destruct (match_at _project_pat (chars (remote_url rem))) as [m|] eqn:Hm;
      simpl in Hrun; simplify_eq; (split; [done|]; split; [done|]).
    + split; [|split; [|split]].
      * intros p [= <-]. rewrite chars_text.
        by apply project_url_names, project_pat_sound.
      * intros _. by eexists.
      * done.
      * left. by eexists.
    + split; [done|]. split; [|split; [done|by right]].
      intros [p Hp]. apply github_url_project_url, project_pat_complete in Hp
        as [m Hp]. congruence.
Qed.

Lemma guess_project_partial_witness :
  fst (run (with_remotes documented_remotes) ∅ (Utils.guess_project "."))
    = Ok "jupyter/notebook"
  ∧ names_project (chars "https://github.com/jupyter/notebook.git")
      (chars "jupyter/notebook").
Proof.
  split; [reflexivity|].
  destruct (guess_project_partial (with_remotes documented_remotes) ∅ "."
              _ _ eq_refl) as (_ & _ & H & _).
  simpl in H. destruct H as (H & _). exact (H "jupyter/notebook" eq_refl).
Defined.

(** A URL of github.com that does not end in .git still gives its
    project. *)
Lemma guess_project_trailing_slash :
  let url := "https://github.com/jupyter/notebook.git/" in
  fst (run (with_remotes [{| remote_name := "origin"; remote_url := url |}]) ∅
         (Utils.guess_project "."))
    = Ok "jupyter/notebook"
  ∧ contains "github.com/" url = true
  ∧ ends_with ".git" url = false.
Proof. vm_compute. done. Qed.

End Resolver.

(** ** Further properties of the cherry-pick strategy *)

Module CherryPickFacts.
Import Text Re Patterns Py Spec Shared ReFacts Samples Exec Observe.








End CherryPickFacts.

(** ** Further properties of the patch strategy *)

Module PatchFacts.
Import Text Re Patterns Py Spec Shared ReFacts Samples Exec Observe.
Import Applier.





End PatchFacts.

(** ** Further properties of the reconciler *)

Module ReconcilerFacts.
Import Text Re Patterns Py Spec Shared ReFacts Samples Exec Observe.
Import Reconciler ShouldSpec MoreSamples.
























End ReconcilerFacts.
